(** * DumbFS (src/fs/driver/dfs/dfs.c): a shallow embedding and its properties

    The driver keeps a flat file system on a raw flash device: a superblock
    at offset 0, a table of fixed-size directory entries behind it, and one
    preallocated extent per file.  Every change of a persistent byte after
    formatting goes through [dfs_write_buffered], which rebuilds an erase
    block in a scratch block and copies it back.

    C integers are kept in [Z].  [int], [size_t], [uint32_t] and [uintptr_t]
    are taken 32 bits wide; the conversions are written where the code
    narrows a value (the block indices of [dfs_write_buffered], the clipped
    lengths of [dfs_read] and [dfs_write], the counters of the superblock).
    A byte is a [Z]; the devices of the examples hold values of 0..255. *)

From Stdlib Require Import ZArith List Bool Lia.
Import ListNotations.
Local Open Scope Z_scope.

(** ** C integer conversions *)

Definition to_uint (x : Z) : Z := x mod 2 ^ 32.
Definition to_int (x : Z) : Z := (x + 2 ^ 31) mod 2 ^ 32 - 2 ^ 31.

(** errno.h and sys/stat.h *)
Definition ENOENT : Z := 2.
Definition ENOMEM : Z := 12.
Definition S_IFMT : Z := 61440.   (* 0170000 *)
Definition S_IFDIR : Z := 16384.  (* 0040000 *)

Definition DFS_MAGIC_0 : Z := 13.   (* 0x0D *)
Definition DFS_MAGIC_1 : Z := 245.  (* 0xF5 *)

(** The value every byte of an erased block reads as. *)
Definition ERASED : Z := 255.

(** ** Byte buffers *)

(** The addresses [off], [off+1], ..., [off+len-1]; empty when [len <= 0]. *)
Definition byte_range (off len : Z) : list Z :=
  map (fun i => off + Z.of_nat i) (seq 0 (Z.to_nat len)).

(** [lo <= a < lo + len], the test of every range of addresses below. *)
Definition in_range (lo len a : Z) : bool := (lo <=? a) && (a <? lo + len).

(** [buf\[i\]] for a C index. *)
Definition byte_at (buf : list Z) (i : Z) : Z := nth (Z.to_nat i) buf 0.

(** [buf + n] for a pointer into a buffer. *)
Definition advance (buf : list Z) (n : Z) : list Z := skipn (Z.to_nat n) buf.

(** ** The flash device *)

(** The calls that change the device, as the facade receives them. *)
Inductive flash_op : Type :=
| OpErase (block : Z)
| OpWrite (offset len : Z).

(** [block_info] holds the [blocks] field of each entry of the geometry
    array; [fl_log] lists the issued operations, most recent first. *)
Record flash_dev : Type := mk_flash_dev {
  block_info : list Z;
  fl_mem : Z -> Z;
  fl_log : list flash_op
}.

(** The device together with the RAM the driver copies through
    ([cache_block_buffer] lives in [ram] when RAM is used as cache). *)
Record machine : Type := mk_machine {
  fdev : flash_dev;
  ram : Z -> Z
}.

Definition with_dev (m : machine) (d : flash_dev) : machine :=
  {| fdev := d; ram := ram m |}.

(** [memcpy((void * ) to, b, len)] into RAM. *)
Definition memcpy (m : machine) (to : Z) (b : list Z) (len : Z) : machine :=
  {| fdev := fdev m;
     ram := fun a => if in_range to len a
                     then byte_at b (a - to) else ram m a |}.

(** ** Build options and platform constants *)

(** The options of the module ([page_size], [block_size],
    [minimum_file_size], [use_ram_as_cache]), the constants of fs/dfs.h and
    limits.h the driver reads ([inodes_max], [name_len], [name_max]), the
    address of the static [cache_block_buffer], and the behaviour of a flash
    cell: [cell_program old new] is what a cell holding [old] holds after
    [new] is written to it. *)
Record platform : Type := mk_platform {
  page_size : Z;
  block_size : Z;
  minimum_file_size : Z;
  use_ram_as_cache : bool;
  inodes_max : Z;
  name_len : Z;
  name_max : Z;
  cache_addr : Z;
  cell_program : Z -> Z -> Z
}.

Section DumbFS.

Variable cfg : platform.

Local Abbreviation NAND_PAGE_SIZE := (page_size cfg).
Local Abbreviation NAND_BLOCK_SIZE := (block_size cfg).
Local Abbreviation MIN_FILE_SZ := (minimum_file_size cfg).
Local Abbreviation USE_RAM_AS_CACHE := (use_ram_as_cache cfg).
Local Abbreviation DFS_INODES_MAX := (inodes_max cfg).
Local Abbreviation DFS_NAME_LEN := (name_len cfg).
Local Abbreviation NAME_MAX := (name_max cfg).
Local Abbreviation cache_block_buffer := (cache_addr cfg).
Local Abbreviation program := (cell_program cfg).

(** *** Flash facade (drivers/flash/flash.h) *)

(** Modelled from the spec: [flash_erase] of drivers/flash, absent from
    the sources.  "Erase block: the smallest unit of flash that can be
    erased"; the erased block reads back as 0xFF ("post-erase default"). *)
Definition flash_erase (d : flash_dev) (block : Z) : Z * flash_dev :=
  (0, {| block_info := block_info d;
         fl_mem := fun a =>
           if in_range (block * NAND_BLOCK_SIZE) NAND_BLOCK_SIZE a
           then ERASED else fl_mem d a;
         fl_log := OpErase block :: fl_log d |}).

(** Modelled from the spec: [flash_read_aligned(byte_off, dst_buf, len)]. *)
Definition flash_read_aligned (d : flash_dev) (offset len : Z) : Z * list Z :=
  (0, map (fl_mem d) (byte_range offset len)).

(** Modelled from the spec: [flash_write_aligned(byte_off, src_buf, len)];
    "writes require a prior erase", so each cell is programmed over what it
    holds. *)
Definition flash_write_aligned (d : flash_dev) (offset : Z) (buff : list Z)
    (len : Z) : Z * flash_dev :=
  (0, {| block_info := block_info d;
         fl_mem := fun a =>
           if in_range offset len a
           then program (fl_mem d a) (byte_at buff (a - offset))
           else fl_mem d a;
         fl_log := OpWrite offset len :: fl_log d |}).

(** Modelled from the spec: [flash_copy_aligned(dst_off, src_off, len)]. *)
Definition flash_copy_aligned (d : flash_dev) (to from len : Z)
    : Z * flash_dev :=
  let '(err, b) := flash_read_aligned d from len in
  if negb (err =? 0) then (err, d) else flash_write_aligned d to b len.

(** Modelled from the spec: [flash_copy_block(dst_block, src_block)];
    "publish (erase target, copy scratch -> target)". *)
Definition flash_copy_block (d : flash_dev) (to from : Z) : Z * flash_dev :=
  let '(_, d1) := flash_erase d to in
  flash_copy_aligned d1 (to * NAND_BLOCK_SIZE) (from * NAND_BLOCK_SIZE)
    NAND_BLOCK_SIZE.

(** A facade call on the device of a machine. *)
Definition on_dev (m : machine) (r : Z * flash_dev) : Z * machine :=
  (fst r, with_dev m (snd r)).

(** *** The cache primitives (dfs.c, lines 44-101) *)

Definition dfs_cache_erase (m : machine) (block : Z) : Z * machine :=
  if USE_RAM_AS_CACHE then (0, m)
  else on_dev m (flash_erase (fdev m) block).

(** The RAM variant copies page by page through the bounce buffer [b];
    [fuel] bounds the iterations of its [while (len > 0)]. *)
Fixpoint dfs_cache_ram (fuel : nat) (m : machine) (to from len : Z)
    : Z * machine :=
  match fuel with
  | O => (0, m)
  | S fuel' =>
      if 0 <? len then
        let tmp_len := Z.min len NAND_PAGE_SIZE in
        let '(err, b) := flash_read_aligned (fdev m) from tmp_len in
        if err <? 0 then (-1, m)
        else dfs_cache_ram fuel' (memcpy m to b tmp_len)
               (to + tmp_len) (from + tmp_len) (len - tmp_len)
      else (0, m)
  end.

Definition dfs_cache (m : machine) (to from len : Z) : Z * machine :=
  if USE_RAM_AS_CACHE then dfs_cache_ram (Z.to_nat len) m to from len
  else on_dev m (flash_copy_aligned (fdev m) to from len).

Definition dfs_cache_write (m : machine) (offset : Z) (buff : list Z)
    (len : Z) : Z * machine :=
  if USE_RAM_AS_CACHE then (0, memcpy m offset buff len)
  else on_dev m (flash_write_aligned (fdev m) offset buff len).

Definition dfs_cache_restore (m : machine) (to from : Z) : Z * machine :=
  if USE_RAM_AS_CACHE then
    let '(_, d1) := flash_erase (fdev m) to in
    on_dev m (flash_write_aligned d1 (to * NAND_BLOCK_SIZE)
                (map (ram m) (byte_range from NAND_BLOCK_SIZE))
                NAND_BLOCK_SIZE)
  else on_dev m (flash_copy_block (fdev m) to from).

Definition CACHE_OFFSET (buff_bk : Z) : Z :=
  if USE_RAM_AS_CACHE then cache_block_buffer
  else buff_bk * NAND_BLOCK_SIZE.

(** *** dfs_write_buffered (dfs.c, lines 110-152) *)

(** The loop over the blocks strictly between [start_bk] and [last_bk]:
    [n] blocks remain, [bk] is the next one. *)
Fixpoint write_whole_blocks (n : nat) (m : machine) (bk : Z) (buff : list Z)
    : Z * machine * list Z :=
  match n with
  | O => (0, m, buff)
  | S n' =>
      let '(_, m1) := on_dev m (flash_erase (fdev m) bk) in
      let '(err, m2) :=
        on_dev m1 (flash_write_aligned (fdev m1) (bk * NAND_BLOCK_SIZE)
                     buff NAND_BLOCK_SIZE) in
      if negb (err =? 0) then (err, m2, buff)
      else write_whole_blocks n' m2 (bk + 1) (advance buff NAND_BLOCK_SIZE)
  end.

(** The common tail: keep the bytes behind the written range and put the
    scratch block back. *)
Definition restore_last (m : machine) (pos last_bk buff_bk : Z)
    : Z * machine :=
  let '(_, m1) :=
    dfs_cache m (CACHE_OFFSET buff_bk + pos)
      (last_bk * NAND_BLOCK_SIZE + pos) (NAND_BLOCK_SIZE - pos) in
  let '(_, m2) := dfs_cache_restore m1 last_bk buff_bk in
  (0, m2).

Definition dfs_write_buffered (m : machine) (pos : Z) (buff : list Z)
    (size : Z) (buff_bk : Z) : Z * machine :=
  let start_bk := Z.quot pos NAND_BLOCK_SIZE in
  let last_bk := to_int (to_uint (pos + size) / NAND_BLOCK_SIZE) in
  let pos := Z.rem pos NAND_BLOCK_SIZE in
  let '(_, m1) := dfs_cache_erase m buff_bk in
  let '(_, m2) :=
    dfs_cache m1 (CACHE_OFFSET buff_bk) (start_bk * NAND_BLOCK_SIZE) pos in
  if start_bk =? last_bk then
    let '(err, m3) :=
      dfs_cache_write m2 (CACHE_OFFSET buff_bk + pos) buff size in
    if negb (err =? 0) then (err, m3)
    else restore_last m3 (to_int (to_uint (pos + size))) last_bk buff_bk
  else
    let '(_, m3) :=
      on_dev m2 (flash_write_aligned (fdev m2) (CACHE_OFFSET buff_bk + pos)
                   buff (NAND_BLOCK_SIZE - pos)) in
    let '(_, m4) := on_dev m3 (flash_copy_block (fdev m3) start_bk buff_bk) in
    let buff1 := advance buff (NAND_BLOCK_SIZE - pos) in
    let pos1 := to_int (to_uint (pos + size) mod NAND_BLOCK_SIZE) in
    let '(err, m5, buff2) :=
      write_whole_blocks (Z.to_nat (last_bk - (start_bk + 1))) m4
        (start_bk + 1) buff1 in
    if negb (err =? 0) then (err, m5)
    else
      let '(_, m6) := on_dev m5 (flash_erase (fdev m5) buff_bk) in
      let '(_, m7) :=
        on_dev m6 (flash_write_aligned (fdev m6) (CACHE_OFFSET buff_bk)
                     buff2 pos1) in
      restore_last m7 pos1 last_bk buff_bk.

(** *** On-flash records (fs/dfs.h) *)

(** A 32-bit field, little-endian. *)
Definition le32 (v : Z) : list Z :=
  [v mod 256; (v / 256) mod 256; (v / 65536) mod 256; (v / 16777216) mod 256].

Definition le32_at (b : list Z) (off : Z) : Z :=
  byte_at b off + 256 * byte_at b (off + 1) + 65536 * byte_at b (off + 2)
  + 16777216 * byte_at b (off + 3).

(** A byte array of exactly [n] bytes: cut or filled with zeros. *)
Definition fit (n : Z) (l : list Z) : list Z :=
  firstn (Z.to_nat n) (l ++ repeat 0 (Z.to_nat n)).

(** The characters of a C string: the bytes before the first NUL. *)
Fixpoint cstr (l : list Z) : list Z :=
  match l with
  | [] => []
  | c :: t => if c =? 0 then [] else c :: cstr t
  end.

(** [strcmp]; the end of a list reads as the terminating NUL. *)
Fixpoint strcmp (s1 s2 : list Z) : Z :=
  match s1, s2 with
  | [], [] => 0
  | [], c2 :: _ => 0 - c2
  | c1 :: _, [] => c1
  | c1 :: t1, c2 :: t2 =>
      if c1 =? c2 then (if c1 =? 0 then 0 else strcmp t1 t2) else c1 - c2
  end.

(** [strcpy(dst, src)]: the characters, the NUL, then what [dst] held. *)
Definition strcpy (dst src : list Z) : list Z :=
  let s := cstr src ++ [0] in s ++ skipn (List.length s) dst.

(** [strncpy(dst, src, n)]: [n] bytes, zero-filled behind the string. *)
Definition strncpy (dst src : list Z) (n : Z) : list Z :=
  fit n (cstr src) ++ skipn (Z.to_nat n) dst.

(** Modelled from the spec: [struct dfs_sb_info] of fs/dfs.h, absent from
    the sources; the fields of the spec's table in its order, the counters
    as 32-bit unsigned integers. *)
Record dfs_sb_info : Type := mk_sb_info {
  magic : list Z;
  inode_count : Z;
  max_inode_count : Z;
  max_len : Z;
  buff_bk : Z;
  free_space : Z
}.

(** Modelled from the spec: [struct dfs_dir_entry] of fs/dfs.h; [name] is
    the array of [DFS_NAME_LEN] bytes at the start of the entry. *)
Record dfs_dir_entry : Type := mk_dir_entry {
  name : list Z;
  pos_start : Z;
  len : Z;
  flags : Z
}.

Definition sizeof_sb_info : Z := 24.
Definition sizeof_dir_entry : Z := DFS_NAME_LEN + 12.

Definition encode_sb (s : dfs_sb_info) : list Z :=
  [byte_at (magic s) 0; byte_at (magic s) 1; 0; 0]
  ++ le32 (inode_count s) ++ le32 (max_inode_count s) ++ le32 (max_len s)
  ++ le32 (buff_bk s) ++ le32 (free_space s).

Definition decode_sb (b : list Z) : dfs_sb_info :=
  {| magic := [byte_at b 0; byte_at b 1];
     inode_count := le32_at b 4;
     max_inode_count := le32_at b 8;
     max_len := le32_at b 12;
     buff_bk := le32_at b 16;
     free_space := le32_at b 20 |}.

Definition encode_dirent (d : dfs_dir_entry) : list Z :=
  fit DFS_NAME_LEN (name d)
  ++ le32 (pos_start d) ++ le32 (len d) ++ le32 (flags d).

Definition decode_dirent (b : list Z) : dfs_dir_entry :=
  {| name := firstn (Z.to_nat DFS_NAME_LEN) b;
     pos_start := le32_at b DFS_NAME_LEN;
     len := le32_at b (DFS_NAME_LEN + 4);
     flags := le32_at b (DFS_NAME_LEN + 8) |}.

Definition DFS_DENTRY_OFFSET (n : Z) : Z :=
  sizeof_sb_info + n * sizeof_dir_entry.

(** *** In-memory objects of the VFS *)

(** [sb_data] is the cached superblock [dfs_info]; [bdev] the device. *)
Record super_block : Type := mk_super_block {
  sb_data : dfs_sb_info;
  bdev : machine
}.

Record inode : Type := mk_inode {
  i_no : Z;
  i_data : Z;
  length : Z;
  i_mode : Z
}.

Record file_desc : Type := mk_file_desc {
  f_inode : inode;
  pos : Z
}.

Definition with_bdev (sb : super_block) (m : machine) : super_block :=
  {| sb_data := sb_data sb; bdev := m |}.

(** *** dfs_format (lines 154-200) *)

(** The inner loop: erase [n] blocks from block [k] on. *)
Fixpoint format_erase_blocks (n : nat) (d : flash_dev) (k : Z)
    : Z * flash_dev * Z :=
  match n with
  | O => (0, d, k)
  | S n' =>
      let '(err, d1) := flash_erase d k in
      if negb (err =? 0) then (err, d1, k)
      else format_erase_blocks n' d1 (k + 1)
  end.

(** The outer loop over the entries of the geometry array. *)
Fixpoint format_erase (infos : list Z) (d : flash_dev) (k : Z)
    : Z * flash_dev * Z :=
  match infos with
  | [] => (0, d, k)
  | blocks :: rest =>
      let '(err, d1, k1) := format_erase_blocks (Z.to_nat blocks) d k in
      if negb (err =? 0) then (err, d1, k1) else format_erase rest d1 k1
  end.

(** [write_buf] is what the uninitialised stack buffer holds on entry. *)
Definition dfs_format (m : machine) (write_buf : list Z) : Z * machine :=
  let fd := fdev m in
  let '(err, d1, _) := format_erase (block_info fd) fd 0 in
  if negb (err =? 0) then (err, with_dev m d1)
  else
    let sbi :=
      {| magic := [DFS_MAGIC_0; DFS_MAGIC_1];
         inode_count := 1;
         max_inode_count := to_uint (DFS_INODES_MAX + 1);
         max_len := to_uint MIN_FILE_SZ;
         buff_bk := if USE_RAM_AS_CACHE then to_uint cache_block_buffer
                    else to_uint (nth 0 (block_info fd) 0 - 1);
         free_space := to_uint (DFS_DENTRY_OFFSET DFS_INODES_MAX) |} in
    let root0 := decode_dirent (advance write_buf sizeof_sb_info) in
    let root :=
      {| name := firstn (Z.to_nat DFS_NAME_LEN) (strcpy (name root0) [47]);
         pos_start := free_space sbi;
         len := to_uint DFS_INODES_MAX;
         flags := S_IFDIR |} in
    let '(_, d2) :=
      flash_write_aligned d1 0 (encode_sb sbi ++ encode_dirent root)
        (sizeof_sb_info + sizeof_dir_entry) in
    (0, with_dev m d2).

(** *** Metadata operations (lines 206-277) *)

Definition dfs_read_sb_info (sb : super_block) : Z * super_block :=
  let '(_, b) := flash_read_aligned (fdev (bdev sb)) 0 sizeof_sb_info in
  (0, {| sb_data := decode_sb b; bdev := bdev sb |}).

Definition dfs_write_sb_info (sb : super_block) (sbi : dfs_sb_info)
    : Z * super_block :=
  let '(_, m) :=
    dfs_write_buffered (bdev sb) 0 (encode_sb sbi) sizeof_sb_info
      (buff_bk sbi) in
  (0, with_bdev sb m).

Definition dfs_read_dirent (sb : super_block) (n : Z) : Z * dfs_dir_entry :=
  let offt := to_uint (DFS_DENTRY_OFFSET n) in
  let '(_, b) := flash_read_aligned (fdev (bdev sb)) offt sizeof_dir_entry in
  let dtr := decode_dirent b in
  if byte_at (name dtr) 0 =? 0 then (- ENOENT, dtr) else (0, dtr).

Definition dfs_write_dirent (sb : super_block) (n : Z) (dtr : dfs_dir_entry)
    : Z * super_block :=
  let offt := to_uint (DFS_DENTRY_OFFSET n) in
  let '(_, m) :=
    dfs_write_buffered (bdev sb) (to_int offt) (encode_dirent dtr)
      sizeof_dir_entry (buff_bk (sb_data sb)) in
  (0, with_bdev sb m).

(** The scan of [ino_from_path]: [fuel] slots remain, [i] is the next. *)
Fixpoint ino_from_path_scan (fuel : nat) (sb : super_block) (path : list Z)
    (i : Z) : Z :=
  match fuel with
  | O => -1
  | S fuel' =>
      let '(r, dirent) := dfs_read_dirent sb i in
      if (r =? 0) && (strcmp path (name dirent) =? 0) then i
      else ino_from_path_scan fuel' sb path (i + 1)
  end.

Definition ino_from_path (sb : super_block) (path : list Z) : Z :=
  ino_from_path_scan (Z.to_nat DFS_INODES_MAX) sb path 0.

(** *** Inode operations (lines 288-445) *)

(** The local [dirent] of [dfs_icreate] (lines 306-313): the struct is
    cleared and given its three fields, then [strcpy] lays the name and
    its NUL over the bytes of the struct, from its first byte.  [name] is
    the first member, so a name of [DFS_NAME_LEN] characters or more runs
    on over [pos_start], [len] and [flags]; what the copy writes behind
    the last byte of the struct lands in the rest of the stack frame,
    which this model does not hold. *)
Definition icreate_dirent (sbi : dfs_sb_info) (i_new : inode)
    (i_name : list Z) : dfs_dir_entry :=
  let cleared :=
    {| name := repeat 0 (Z.to_nat DFS_NAME_LEN);
       pos_start := free_space sbi;
       len := 0;
       flags := Z.land (i_mode i_new) S_IFMT |} in
  decode_dirent (strcpy (encode_dirent cleared) i_name).

(** [i_name] is [inode_name(i_new)], the name the VFS gave the new node. *)
Definition dfs_icreate (sb : super_block) (i_new : option inode)
    (i_name : list Z) : Z * super_block * option inode :=
  match i_new with
  | None => (-1, sb, None)
  | Some ino =>
      let '(_, sb1) := dfs_read_sb_info sb in
      let sbi := sb_data sb1 in
      if max_inode_count sbi <? inode_count sbi then (- ENOMEM, sb1, i_new)
      else
        let dirent := icreate_dirent sbi ino i_name in
        let '(_, sb2) := dfs_write_dirent sb1 (to_int (inode_count sbi)) dirent in
        let ino' :=
          {| i_no := to_int (inode_count sbi);
             i_data := pos_start dirent;
             length := 0;
             i_mode := 0 |} in
        let sbi' :=
          {| magic := magic sbi;
             inode_count := to_uint (inode_count sbi + 1);
             max_inode_count := max_inode_count sbi;
             max_len := max_len sbi;
             buff_bk := buff_bk sbi;
             free_space := to_uint (free_space sbi + MIN_FILE_SZ) |} in
        let sb3 := {| sb_data := sbi'; bdev := bdev sb2 |} in
        let '(_, sb4) := dfs_write_sb_info sb3 sbi' in
        (0, sb4, Some ino')
  end.

Definition dfs_itruncate (sb : super_block) (ino : inode) (new_len : Z)
    : Z * super_block * inode :=
  if new_len <? 0 then (-1, sb, ino)
  else if max_len (sb_data sb) <? new_len then (-1, sb, ino)
  else
    let '(_, entry) := dfs_read_dirent sb (i_no ino) in
    if new_len =? length ino then (0, sb, ino)
    else
      let entry' :=
        {| name := name entry; pos_start := pos_start entry;
           len := to_uint new_len; flags := flags entry |} in
      let '(_, sb1) := dfs_write_dirent sb (i_no ino) entry' in
      (0, sb1, {| i_no := i_no ino; i_data := i_data ino;
                  length := new_len; i_mode := i_mode ino |}).

(** [alloc] is the result of [dvfs_alloc_inode]; the result [None] is the
    NULL pointer. *)
Definition dfs_ilookup (sb : super_block) (path : list Z)
    (alloc : option inode) : option inode :=
  match alloc with
  | None => None
  | Some ino =>
      let n := ino_from_path sb path in
      if n <? 0 then None
      else
        let '(_, dirent) := dfs_read_dirent sb n in
        Some {| i_no := n; i_data := pos_start dirent;
                length := len dirent; i_mode := flags dirent |}
  end.

(** [memcmp(&dirent, &empty_dirent, 4) == 0]. *)
Definition dirent_erased (d : dfs_dir_entry) : bool :=
  forallb (Z.eqb ERASED) (firstn 4 (encode_dirent d)).

(** The scan of [dfs_iterate] from slot [i]; [None] at the end of the
    directory. *)
Fixpoint dfs_iterate_scan (fuel : nat) (sb : super_block) (i : Z)
    : option (Z * dfs_dir_entry) :=
  match fuel with
  | O => None
  | S fuel' =>
      let '(_, dirent) := dfs_read_dirent sb i in
      if negb (dirent_erased dirent) then Some (i, dirent)
      else dfs_iterate_scan fuel' sb (i + 1)
  end.

(** Returns the status with [next], [name_buf] and [ctx->fs_ctx] as the
    call leaves them. *)
Definition dfs_iterate (sb : super_block) (next : inode) (name_buf : list Z)
    (parent : inode) (fs_ctx : Z) : Z * inode * list Z * Z :=
  let dir_pos := if fs_ctx =? 0 then fs_ctx + 1 else fs_ctx in
  match dfs_iterate_scan (Z.to_nat (length parent - dir_pos)) sb dir_pos with
  | Some (i, dirent) =>
      (0,
       {| i_no := i; i_data := pos_start dirent;
          length := len dirent; i_mode := flags dirent |},
       strncpy name_buf (name dirent) NAME_MAX,
       i + 1)
  | None => (-1, next, name_buf, fs_ctx)
  end.

(** *** dfs_pathname (lines 447-461) *)

(** [buf] is what the caller's buffer holds; [DVFS_NAME] is the flag of
    fs/dvfs.h, taken as an argument.  Returns the status and the buffer. *)
Definition dfs_pathname (sb : super_block) (ino : inode) (buf : list Z)
    (flags DVFS_NAME : Z) : Z * list Z :=
  let '(_, dirent) := dfs_read_dirent sb (i_no ino) in
  if negb (Z.land flags DVFS_NAME =? 0) then (0, strcpy buf (name dirent))
  else (0, 47 :: strcpy (advance buf 1) (name dirent)).

(** *** File operations (lines 493-543) *)

(** Modelled from the spec: [min] of util/math.h and [file_get_size] of the
    VFS, absent from the sources; "clips to min(size, file_length -
    file_pos)". *)
Definition file_get_size (desc : file_desc) : Z := length (f_inode desc).

(** Both return a [size_t]; the result is given as its callers read it, as
    a signed count, so that [return -1] is [-1]. *)
Definition dfs_write (sb : super_block) (desc : file_desc) (buf : list Z)
    (size : Z) : Z * super_block :=
  let p := to_int (to_uint (i_data (f_inode desc) + pos desc)) in
  let l := to_int (Z.min size (max_len (sb_data sb) - pos desc)) in
  if l <=? 0 then (-1, sb)
  else
    let '(_, m) :=
      dfs_write_buffered (bdev sb) p buf l (buff_bk (sb_data sb)) in
    (l, with_bdev sb m).

Definition dfs_read (sb : super_block) (desc : file_desc) (size : Z)
    : Z * list Z :=
  let p := to_int (to_uint (i_data (f_inode desc) + pos desc)) in
  let l := to_int (Z.min size (file_get_size desc - pos desc)) in
  if l <? 0 then (-1, [])
  else
    let '(_, b) := flash_read_aligned (fdev (bdev sb)) p l in
    (l, b).

(** *** Mount (lines 555-581) *)

(** Returns the status, the super block and the root inode. *)
Definition dfs_fill_sb (m : machine) (sb_root : inode) (write_buf : list Z)
    : Z * super_block * inode :=
  let sb0 := {| sb_data := decode_sb []; bdev := m |} in
  let '(_, sb1) := dfs_read_sb_info sb0 in
  let sbi := sb_data sb1 in
  let sb2 :=
    if (byte_at (magic sbi) 0 =? DFS_MAGIC_0)
       && (byte_at (magic sbi) 1 =? DFS_MAGIC_1)
    then sb1
    else
      let '(_, m1) := dfs_format (bdev sb1) write_buf in
      snd (dfs_read_sb_info (with_bdev sb1 m1)) in
  let '(_, dtr) := dfs_read_dirent sb2 0 in
  (0, sb2,
   {| i_no := 0; i_data := pos_start dtr; length := len dtr;
      i_mode := i_mode sb_root |}).

(** *** Reading a directory to its end *)

(** What a caller of [dfs_iterate] collects when it starts from the cursor
    [fs_ctx] and calls until the end of the directory: the inode number and
    the name of every entry, in order.  [None] when [fuel] calls did not
    reach the end. *)
Fixpoint enumerate (fuel : nat) (sb : super_block) (parent : inode)
    (fs_ctx : Z) : option (list (Z * list Z)) :=
  match fuel with
  | O => None
  | S fuel' =>
      let '(r, next, name_buf, ctx') :=
        dfs_iterate sb (mk_inode 0 0 0 0) [] parent fs_ctx in
      if r =? 0 then
        match enumerate fuel' sb parent ctx' with
        | Some l => Some ((i_no next, cstr name_buf) :: l)
        | None => None
        end
      else Some []
  end.

(** ** Vocabulary of the properties *)

(** The erases of blocks other than [scratch] in a log. *)
Definition is_persistent_erase (scratch : Z) (op : flash_op) : bool :=
  match op with
  | OpErase b => negb (b =? scratch)
  | OpWrite _ _ => false
  end.

Definition persistent_erases (scratch : Z) (log : list flash_op) : Z :=
  Z.of_nat (List.length (filter (is_persistent_erase scratch) log)).

Definition is_erase_of (block : Z) (op : flash_op) : bool :=
  match op with
  | OpErase b => b =? block
  | OpWrite _ _ => false
  end.

(** A write of at least one byte that reaches into [block]. *)
Definition is_write_into (block : Z) (op : flash_op) : bool :=
  match op with
  | OpErase _ => false
  | OpWrite off len =>
      (0 <? len) && (off <? block * NAND_BLOCK_SIZE + NAND_BLOCK_SIZE)
      && (block * NAND_BLOCK_SIZE <? off + len)
  end.

Definition count_ops (f : flash_op -> bool) (log : list flash_op) : Z :=
  Z.of_nat (List.length (filter f log)).

(** The operations a call added to the log, most recent first. *)
Definition new_ops (before after : list flash_op) : list flash_op :=
  firstn (List.length after - List.length before) after.

(** The bytes of the device at [off .. off + len). *)
Definition flash_bytes (m : machine) (off len : Z) : list Z :=
  map (fl_mem (fdev m)) (byte_range off len).

(** What the loop over [n] whole blocks from [bk] on adds to the log. *)
Fixpoint whole_blocks_ops (n : nat) (bk : Z) : list flash_op :=
  match n with
  | O => []
  | S n' =>
      whole_blocks_ops n' (bk + 1)
      ++ [OpWrite (bk * NAND_BLOCK_SIZE) NAND_BLOCK_SIZE; OpErase bk]
  end.

(** The device after a buffered write over the contents [f]: the written
    range holds the buffer, the scratch block holds the image of the block
    of the end offset, every other byte is as before. *)
Definition written_mem (f : Z -> Z) (pos : Z) (buff : list Z) (size : Z)
    (scratch : Z) : Z -> Z :=
  fun a =>
    if in_range pos size a then byte_at buff (a - pos)
    else if in_range (scratch * NAND_BLOCK_SIZE) NAND_BLOCK_SIZE a then
      let a' := (pos + size) / NAND_BLOCK_SIZE * NAND_BLOCK_SIZE
                + (a - scratch * NAND_BLOCK_SIZE) in
      if in_range pos size a' then byte_at buff (a' - pos) else f a'
    else f a.

(** What a buffered write in flash-scratch mode adds to the log, most
    recent first. *)
Definition buffered_write_ops (pos size scratch : Z) : list flash_op :=
  let B := NAND_BLOCK_SIZE in
  let s := pos / B in
  let l := (pos + size) / B in
  let off := pos mod B in
  let K := scratch * B in
  if s =? l then
    [OpWrite (l * B) B; OpErase l;
     OpWrite (K + (off + size)) (B - (off + size));
     OpWrite (K + off) size; OpWrite K off; OpErase scratch]
  else
    let tail := (pos + size) mod B in
    [OpWrite (l * B) B; OpErase l;
     OpWrite (K + tail) (B - tail); OpWrite K tail; OpErase scratch]
    ++ whole_blocks_ops (Z.to_nat (l - (s + 1))) (s + 1)
    ++ [OpWrite (s * B) B; OpErase s;
        OpWrite (K + off) (B - off); OpWrite K off; OpErase scratch].

(** A superblock whose fields fit their 32 bits and whose magic has its
    two bytes. *)
Definition sb_representable (s : dfs_sb_info) : Prop :=
  List.length (magic s) = 2%nat
  /\ 0 <= inode_count s < 2 ^ 32
  /\ 0 <= max_inode_count s < 2 ^ 32
  /\ 0 <= max_len s < 2 ^ 32
  /\ 0 <= buff_bk s < 2 ^ 32
  /\ 0 <= free_space s < 2 ^ 32.

(** An entry whose name fills its array and whose fields fit 32 bits. *)
Definition dirent_representable (d : dfs_dir_entry) : Prop :=
  List.length (name d) = Z.to_nat DFS_NAME_LEN
  /\ 0 <= pos_start d < 2 ^ 32
  /\ 0 <= len d < 2 ^ 32
  /\ 0 <= flags d < 2 ^ 32.

(** A file name as the VFS hands it over: its characters, none of them
    NUL. *)
Definition c_string (s : list Z) : Prop := Forall (fun c => c <> 0) s.

(** The test of [ino_from_path] on slot [i]. *)
Definition slot_matches (sb : super_block) (path : list Z) (i : Z) : bool :=
  let '(r, dirent) := dfs_read_dirent sb i in
  (r =? 0) && (strcmp path (name dirent) =? 0).

(** The entry that [dfs_icreate] builds for a name [i_name] that fits the
    name array together with its NUL. *)
Definition new_dirent (sbi : dfs_sb_info) (ino : inode) (i_name : list Z)
    : dfs_dir_entry :=
  {| name := firstn (Z.to_nat DFS_NAME_LEN)
               (strcpy (repeat 0 (Z.to_nat DFS_NAME_LEN)) i_name);
     pos_start := free_space sbi;
     len := 0;
     flags := Z.land (i_mode ino) S_IFMT |}.

(** How often the name [nm] occurs among the entries of an enumeration. *)
Definition count_name (nm : list Z) (entries : list (Z * list Z)) : Z :=
  Z.of_nat (List.length
    (filter (fun e => if list_eq_dec Z.eq_dec (snd e) nm then true else false)
       entries)).

(** The entries of the slots [i], [i+1], ..., [i+n-1] that [dfs_iterate]
    takes as present, as [enumerate] reports them. *)
Fixpoint present_entries (n : nat) (sb : super_block) (i : Z)
    : list (Z * list Z) :=
  match n with
  | O => []
  | S n' =>
      let dirent := snd (dfs_read_dirent sb i) in
      (if dirent_erased dirent then []
       else [(i, cstr (strncpy [] (name dirent) NAME_MAX))])
      ++ present_entries n' sb (i + 1)
  end.

(** The superblock [dfs_icreate] writes back after taking a slot. *)
Definition next_sb (sbi : dfs_sb_info) : dfs_sb_info :=
  {| magic := magic sbi;
     inode_count := to_uint (inode_count sbi + 1);
     max_inode_count := max_inode_count sbi;
     max_len := max_len sbi;
     buff_bk := buff_bk sbi;
     free_space := to_uint (free_space sbi + MIN_FILE_SZ) |}.

(** The superblock as the device holds it. *)
Definition sb_on_flash (sb : super_block) : dfs_sb_info :=
  sb_data (snd (dfs_read_sb_info sb)).

(** The number of blocks the geometry array reports. *)
Definition total_blocks (infos : list Z) : Z :=
  fold_right (fun blocks acc => Z.max 0 blocks + acc) 0 infos.

(** The superblock [dfs_format] writes. *)
Definition fresh_sb (m : machine) : dfs_sb_info :=
  {| magic := [DFS_MAGIC_0; DFS_MAGIC_1];
     inode_count := 1;
     max_inode_count := to_uint (DFS_INODES_MAX + 1);
     max_len := to_uint MIN_FILE_SZ;
     buff_bk := if USE_RAM_AS_CACHE then to_uint cache_block_buffer
                else to_uint (nth 0 (block_info (fdev m)) 0 - 1);
     free_space := to_uint (DFS_DENTRY_OFFSET DFS_INODES_MAX) |}.

(** The root entry [dfs_format] writes over the stack contents
    [write_buf]. *)
Definition fresh_root (m : machine) (write_buf : list Z) : dfs_dir_entry :=
  {| name := firstn (Z.to_nat DFS_NAME_LEN)
               (strcpy (name (decode_dirent (advance write_buf sizeof_sb_info)))
                  [47]);
     pos_start := free_space (fresh_sb m);
     len := to_uint DFS_INODES_MAX;
     flags := S_IFDIR |}.

(** The test of [dfs_iterate] on slot [i]: its first four bytes read as
    erased flash. *)
Definition slot_erased (sb : super_block) (i : Z) : bool :=
  dirent_erased (snd (dfs_read_dirent sb i)).

End DumbFS.

(** ** Example platforms *)

(** A NAND cell: erased cells take the value, others keep only the bits
    both values have. *)
Definition nand_program (old new : Z) : Z :=
  if old =? ERASED then new else Z.land old new.

(** Blocks of 8 bytes, pages of 4, a flash block as scratch. *)
Definition tiny_flash : platform :=
  {| page_size := 4; block_size := 8; minimum_file_size := 16;
     use_ram_as_cache := false; inodes_max := 3; name_len := 4;
     name_max := 8; cache_addr := 4096; cell_program := nand_program |}.

(** The same with the RAM buffer as scratch. *)
Definition tiny_ram : platform :=
  {| page_size := 4; block_size := 8; minimum_file_size := 16;
     use_ram_as_cache := true; inodes_max := 3; name_len := 4;
     name_max := 8; cache_addr := 4096; cell_program := nand_program |}.

(** Blocks of 64 bytes: superblock and dirent table fit the first block. *)
Definition small_flash : platform :=
  {| page_size := 4; block_size := 64; minimum_file_size := 16;
     use_ram_as_cache := false; inodes_max := 3; name_len := 4;
     name_max := 8; cache_addr := 4096; cell_program := nand_program |}.

(** A device of [n] blocks in one geometry entry whose byte [a] holds
    [f a], with an empty log. *)
Definition device (n : Z) (f : Z -> Z) : machine :=
  {| fdev := {| block_info := [n]; fl_mem := f; fl_log := [] |};
     ram := fun _ => 0 |}.

(** A file system mounted from a blank device of 8 blocks of 64 bytes, the
    last of them the scratch block. *)
Definition blank_inode : inode := mk_inode 0 0 0 0.

Definition fresh_mount : Z * super_block * inode :=
  dfs_fill_sb small_flash (device 8 (fun _ => 0)) blank_inode (repeat 7 40).

Definition mounted_sb : super_block := snd (fst fresh_mount).
Definition mounted_root : inode := snd fresh_mount.

(** The super block after creating the names of [names] in order. *)
Fixpoint create_all (sb : super_block) (names : list (list Z))
    : super_block :=
  match names with
  | [] => sb
  | nm :: rest =>
      create_all (snd (fst (dfs_icreate small_flash sb (Some blank_inode) nm)))
        rest
  end.

(** A device of 4 blocks of 8 bytes whose byte [a] holds
    [100 + a mod 100]. *)
Definition tiny_device : machine := device 4 (fun a => 100 + a mod 100).

(** The file "a" on the mounted file system: the super block after its
    creation and the inode the creation filled in. *)
Definition with_file_a : Z * super_block * option inode :=
  dfs_icreate small_flash mounted_sb (Some blank_inode) [97].

Definition sb_a : super_block := snd (fst with_file_a).

Definition inode_a : inode :=
  match snd with_file_a with
  | Some ino => ino
  | None => blank_inode
  end.

(** The file "a" opened with 16 bytes of length, positioned at offset 2. *)
Definition desc_a : file_desc := {| f_inode := mk_inode 1 72 16 0; pos := 2 |}.

(** A second file named "a" beside the first: the super block after its
    creation and the inode the creation filled in. *)
Definition with_file_a_again : Z * super_block * option inode :=
  dfs_icreate small_flash sb_a (Some blank_inode) [97].

Definition sb_aa : super_block := snd (fst with_file_a_again).

Definition inode_a_again : inode :=
  match snd with_file_a_again with
  | Some ino => ino
  | None => blank_inode
  end.

(** The platform of [small_flash] built with the RAM buffer as scratch,
    and a file system mounted there from a blank device of 8 blocks. *)
Definition small_ram : platform :=
  {| page_size := 4; block_size := 64; minimum_file_size := 16;
     use_ram_as_cache := true; inodes_max := 3; name_len := 4;
     name_max := 8; cache_addr := 4096; cell_program := nand_program |}.

Definition ram_mounted_sb : super_block :=
  snd (fst (dfs_fill_sb small_ram (device 8 (fun _ => 0)) blank_inode
              (repeat 7 40))).

(** ** Properties *)

Section Properties.

Variable cfg : platform.

Local Abbreviation NAND_PAGE_SIZE := (page_size cfg).
Local Abbreviation NAND_BLOCK_SIZE := (block_size cfg).
Local Abbreviation MIN_FILE_SZ := (minimum_file_size cfg).
Local Abbreviation USE_RAM_AS_CACHE := (use_ram_as_cache cfg).
Local Abbreviation DFS_INODES_MAX := (inodes_max cfg).
Local Abbreviation DFS_NAME_LEN := (name_len cfg).
Local Abbreviation NAME_MAX := (name_max cfg).
Local Abbreviation program := (cell_program cfg).

(** *** Assumptions on the platform *)

(** An erased cell takes the value written to it. *)
Hypothesis program_erased : forall v, program ERASED v = v.

Hypothesis block_size_pos : 0 < NAND_BLOCK_SIZE.

(** *** Integers and buffers *)

Lemma to_uint_small (x : Z) : 0 <= x < 2 ^ 32 -> to_uint x = x.
Proof. intros H. unfold to_uint. apply Z.mod_small. exact H. Qed.

Lemma to_int_small (x : Z) : - 2 ^ 31 <= x < 2 ^ 31 -> to_int x = x.
Proof.
  intros H. unfold to_int. rewrite Z.mod_small; lia.
Qed.

Lemma in_range_true (lo len a : Z) :
  lo <= a < lo + len -> in_range lo len a = true.
Proof.
  intros H. unfold in_range. apply andb_true_iff. split.
  - apply Z.leb_le. lia.
  - apply Z.ltb_lt. lia.
Qed.

Lemma in_range_false (lo len a : Z) :
  a < lo \/ lo + len <= a -> in_range lo len a = false.
Proof.
  intros H. unfold in_range. apply andb_false_iff.
  destruct H as [H | H].
  - left. apply Z.leb_gt. exact H.
  - right. apply Z.ltb_ge. exact H.
Qed.

Lemma in_range_cases (lo len a : Z) :
  (lo <= a < lo + len /\ in_range lo len a = true)
  \/ ((a < lo \/ lo + len <= a) /\ in_range lo len a = false).
Proof.
  destruct (Z_le_gt_dec lo a); [destruct (Z_lt_ge_dec a (lo + len)) |].
  - left. split; [lia | apply in_range_true; lia].
  - right. split; [lia | apply in_range_false; lia].
  - right. split; [lia | apply in_range_false; lia].
Qed.

(** Settles every [in_range] test of the goal: by arithmetic where the
    context decides it, by a case distinction otherwise. *)
Ltac range_step :=
  match goal with
  | |- context [in_range ?lo ?len ?a] =>
      first [ rewrite (in_range_true lo len a) by lia
            | rewrite (in_range_false lo len a) by lia ]
  | |- context [in_range ?lo ?len ?a] =>
      let H := fresh "Hr" in
      let E := fresh "Er" in
      destruct (in_range_cases lo len a) as [[H E] | [H E]]; rewrite E
  end.

Ltac ranges := repeat range_step.

Lemma length_byte_range (off len : Z) :
  List.length (byte_range off len) = Z.to_nat len.
Proof. unfold byte_range. rewrite length_map, length_seq. reflexivity. Qed.

Lemma byte_at_map_range (f : Z -> Z) (off len i : Z) :
  0 <= i < len -> byte_at (map f (byte_range off len)) i = f (off + i).
Proof.
  intros H. unfold byte_at, byte_range.
  rewrite map_map.
  rewrite (nth_indep _ 0 (f (off + Z.of_nat 0))).
  - rewrite (map_nth (fun x => f (off + Z.of_nat x))).
    rewrite seq_nth by lia. simpl. f_equal. lia.
  - rewrite length_map, length_seq. lia.
Qed.

Lemma byte_at_advance (buf : list Z) (n i : Z) :
  0 <= n -> 0 <= i -> byte_at (advance buf n) i = byte_at buf (n + i).
Proof.
  intros Hn Hi. unfold byte_at, advance.
  rewrite nth_skipn. f_equal. lia.
Qed.

(** A buffer is determined by its length and its bytes. *)
Lemma bytes_ext (l1 l2 : list Z) :
  List.length l1 = List.length l2 ->
  (forall i, 0 <= i < Z.of_nat (List.length l1) -> byte_at l1 i = byte_at l2 i) ->
  l1 = l2.
Proof.
  intros Hlen Hnth. apply (nth_ext l1 l2 0 0 Hlen).
  intros n Hn. specialize (Hnth (Z.of_nat n)).
  unfold byte_at in Hnth. rewrite Nat2Z.id in Hnth. apply Hnth. lia.
Qed.

Lemma flash_bytes_ext (m1 m2 : machine) (off len : Z) :
  (forall a, off <= a < off + len -> fl_mem (fdev m1) a = fl_mem (fdev m2) a) ->
  flash_bytes m1 off len = flash_bytes m2 off len.
Proof.
  intros H. unfold flash_bytes, byte_range. rewrite !map_map.
  apply map_ext_in. intros i Hi. apply in_seq in Hi. apply H. lia.
Qed.

Lemma flash_bytes_eq (m : machine) (off : Z) (buf : list Z) :
  (forall i, 0 <= i < Z.of_nat (List.length buf) ->
             fl_mem (fdev m) (off + i) = byte_at buf i) ->
  flash_bytes m off (Z.of_nat (List.length buf)) = buf.
Proof.
  intros H. apply bytes_ext.
  - unfold flash_bytes. rewrite length_map, length_byte_range. lia.
  - intros i Hi. unfold flash_bytes in *.
    rewrite length_map, length_byte_range in Hi.
    rewrite byte_at_map_range by lia. apply H. lia.
Qed.

(** *** The facade, pointwise *)

Lemma mem_erase (d : flash_dev) (b a : Z) :
  fl_mem (snd (flash_erase cfg d b)) a =
  if in_range (b * NAND_BLOCK_SIZE) NAND_BLOCK_SIZE a then ERASED
  else fl_mem d a.
Proof. reflexivity. Qed.

Lemma mem_write (d : flash_dev) (off : Z) (buf : list Z) (n a : Z) :
  fl_mem (snd (flash_write_aligned cfg d off buf n)) a =
  if in_range off n a then program (fl_mem d a) (byte_at buf (a - off))
  else fl_mem d a.
Proof. reflexivity. Qed.

Lemma mem_copy (d : flash_dev) (to from n a : Z) :
  fl_mem (snd (flash_copy_aligned cfg d to from n)) a =
  if in_range to n a then program (fl_mem d a) (fl_mem d (from + (a - to)))
  else fl_mem d a.
Proof.
  unfold flash_copy_aligned, flash_read_aligned. simpl.
  destruct (in_range_cases to n a) as [[H E] | [H E]]; rewrite E.
  - rewrite byte_at_map_range by lia. reflexivity.
  - reflexivity.
Qed.

Lemma mem_copy_block (d : flash_dev) (to from a : Z) :
  fl_mem (snd (flash_copy_block cfg d to from)) a =
  if in_range (to * NAND_BLOCK_SIZE) NAND_BLOCK_SIZE a
  then fl_mem (snd (flash_erase cfg d to))
         (from * NAND_BLOCK_SIZE + (a - to * NAND_BLOCK_SIZE))
  else fl_mem d a.
Proof.
  unfold flash_copy_block.
  change (flash_erase cfg d to) with (0, snd (flash_erase cfg d to)).
  cbv beta iota. rewrite mem_copy, mem_erase.
  destruct (in_range_cases (to * NAND_BLOCK_SIZE) NAND_BLOCK_SIZE a)
    as [[H E] | [H E]]; rewrite E.
  - apply program_erased.
  - reflexivity.
Qed.

Lemma log_erase (d : flash_dev) (b : Z) :
  fl_log (snd (flash_erase cfg d b)) = OpErase b :: fl_log d.
Proof. reflexivity. Qed.

Lemma log_write (d : flash_dev) (off : Z) (buf : list Z) (n : Z) :
  fl_log (snd (flash_write_aligned cfg d off buf n)) = OpWrite off n :: fl_log d.
Proof. reflexivity. Qed.

Lemma log_copy (d : flash_dev) (to from n : Z) :
  fl_log (snd (flash_copy_aligned cfg d to from n)) = OpWrite to n :: fl_log d.
Proof. reflexivity. Qed.

Lemma log_copy_block (d : flash_dev) (to from : Z) :
  fl_log (snd (flash_copy_block cfg d to from)) =
  OpWrite (to * NAND_BLOCK_SIZE) NAND_BLOCK_SIZE :: OpErase to :: fl_log d.
Proof. reflexivity. Qed.

Lemma info_erase (d : flash_dev) (b : Z) :
  block_info (snd (flash_erase cfg d b)) = block_info d.
Proof. reflexivity. Qed.

Lemma info_write (d : flash_dev) (off : Z) (buf : list Z) (n : Z) :
  block_info (snd (flash_write_aligned cfg d off buf n)) = block_info d.
Proof. reflexivity. Qed.

Lemma info_copy (d : flash_dev) (to from n : Z) :
  block_info (snd (flash_copy_aligned cfg d to from n)) = block_info d.
Proof. reflexivity. Qed.

Lemma info_copy_block (d : flash_dev) (to from : Z) :
  block_info (snd (flash_copy_block cfg d to from)) = block_info d.
Proof. reflexivity. Qed.

Lemma fst_erase (d : flash_dev) (b : Z) : fst (flash_erase cfg d b) = 0.
Proof. reflexivity. Qed.

Lemma fst_write (d : flash_dev) (off : Z) (buf : list Z) (n : Z) :
  fst (flash_write_aligned cfg d off buf n) = 0.
Proof. reflexivity. Qed.

Lemma fst_copy (d : flash_dev) (to from n : Z) :
  fst (flash_copy_aligned cfg d to from n) = 0.
Proof. reflexivity. Qed.

Lemma fst_copy_block (d : flash_dev) (to from : Z) :
  fst (flash_copy_block cfg d to from) = 0.
Proof. reflexivity. Qed.

(** *** The loop over whole blocks *)

Lemma write_whole_blocks_spec (n : nat) :
  forall (m : machine) (bk : Z) (buf : list Z),
    let r := write_whole_blocks cfg n m bk buf in
    fst (fst r) = 0
    /\ snd r = advance buf (Z.of_nat n * NAND_BLOCK_SIZE)
    /\ ram (snd (fst r)) = ram m
    /\ block_info (fdev (snd (fst r))) = block_info (fdev m)
    /\ fl_log (fdev (snd (fst r))) =
         whole_blocks_ops cfg n bk ++ fl_log (fdev m)
    /\ forall a,
         fl_mem (fdev (snd (fst r))) a =
         if in_range (bk * NAND_BLOCK_SIZE) (Z.of_nat n * NAND_BLOCK_SIZE) a
         then byte_at buf (a - bk * NAND_BLOCK_SIZE)
         else fl_mem (fdev m) a.
Proof.
  induction n as [| n IH]; intros m bk buf.
  - simpl. repeat apply conj; try reflexivity.
    intros a. rewrite in_range_false by lia. reflexivity.
  - cbn [write_whole_blocks].
    unfold on_dev. cbn [fst snd].
    rewrite fst_write. cbn [Z.eqb negb].
    set (m2 := with_dev _ _).
    specialize (IH m2 (bk + 1) (advance buf NAND_BLOCK_SIZE)).
    cbv zeta in IH. destruct IH as (I1 & I2 & I3 & I4 & I5 & I6).
    cbv zeta. repeat apply conj.
    + exact I1.
    + rewrite I2. unfold advance. rewrite skipn_skipn. f_equal. lia.
    + rewrite I3. reflexivity.
    + rewrite I4. reflexivity.
    + rewrite I5. cbn [whole_blocks_ops]. rewrite <- app_assoc. reflexivity.
    + intros a. rewrite I6. subst m2. cbn [fdev with_dev].
      rewrite mem_write. cbn [fdev with_dev]. rewrite mem_erase.
      ranges; rewrite ?program_erased, ?byte_at_advance by lia;
        try reflexivity; try lia; f_equal; lia.
Qed.

(** *** The buffered write with a flash block as scratch *)

Hypothesis flash_scratch : USE_RAM_AS_CACHE = false.

(** Rewrites the contents of a device into those of the device the
    operations started from. *)
Ltac mem_unfold :=
  repeat first
    [ rewrite mem_copy_block | rewrite mem_copy | rewrite mem_write
    | rewrite mem_erase | progress cbn [fdev with_dev ram] ].

Ltac mem_done :=
  rewrite ?program_erased; try reflexivity; try lia; f_equal; lia.

Section BufferedWrite.

Variable m : machine.
Variable pos : Z.
Variable buff : list Z.
Variable size : Z.
Variable scratch : Z.

Hypothesis pos_nonneg : 0 <= pos.
Hypothesis size_nonneg : 0 <= size.
Hypothesis end_fits : pos + size < 2 ^ 31.
Hypothesis scratch_apart :
  scratch < pos / NAND_BLOCK_SIZE \/ (pos + size) / NAND_BLOCK_SIZE < scratch.

Lemma dfs_write_buffered_flash :
  let r := dfs_write_buffered cfg m pos buff size scratch in
  fst r = 0
  /\ ram (snd r) = ram m
  /\ block_info (fdev (snd r)) = block_info (fdev m)
  /\ fl_log (fdev (snd r)) =
       buffered_write_ops cfg pos size scratch ++ fl_log (fdev m)
  /\ forall a,
       fl_mem (fdev (snd r)) a =
       written_mem cfg (fl_mem (fdev m)) pos buff size scratch a.
Proof.
  pose proof block_size_pos as HB.
  unfold dfs_write_buffered, restore_last, dfs_cache_erase, dfs_cache,
    dfs_cache_write, dfs_cache_restore, CACHE_OFFSET, buffered_write_ops,
    written_mem.
  rewrite flash_scratch. unfold on_dev. cbn [fst snd].
  rewrite Z.quot_div_nonneg, Z.rem_mod_nonneg by lia.
  pose proof (Z.div_mod pos NAND_BLOCK_SIZE ltac:(lia)) as Hpos.
  pose proof (Z.mod_pos_bound pos NAND_BLOCK_SIZE HB) as Hoff.
  pose proof (Z.div_mod (pos + size) NAND_BLOCK_SIZE ltac:(lia)) as Hend.
  pose proof (Z.mod_pos_bound (pos + size) NAND_BLOCK_SIZE HB) as Htail.
  assert (Hs : 0 <= pos / NAND_BLOCK_SIZE) by (apply Z.div_pos; lia).
  assert (Hsl : pos / NAND_BLOCK_SIZE <= (pos + size) / NAND_BLOCK_SIZE)
    by (apply Z.div_le_mono; lia).
  assert (Hl : (pos + size) / NAND_BLOCK_SIZE <= pos + size)
    by (apply Z.div_le_upper_bound; nia).
  rewrite (to_uint_small (pos + size)) by lia.
  rewrite (to_int_small ((pos + size) / NAND_BLOCK_SIZE)) by lia.
  set (s := pos / NAND_BLOCK_SIZE) in *.
  set (l := (pos + size) / NAND_BLOCK_SIZE) in *.
  set (off := pos mod NAND_BLOCK_SIZE) in *.
  set (tail := (pos + size) mod NAND_BLOCK_SIZE) in *.
  assert (HK : scratch * NAND_BLOCK_SIZE + NAND_BLOCK_SIZE <= s * NAND_BLOCK_SIZE
               \/ l * NAND_BLOCK_SIZE + NAND_BLOCK_SIZE
                  <= scratch * NAND_BLOCK_SIZE) by nia.
  assert (HslB : s * NAND_BLOCK_SIZE <= l * NAND_BLOCK_SIZE) by nia.
  destruct (s =? l) eqn:E.
  - apply Z.eqb_eq in E.
    rewrite fst_write. cbn [Z.eqb negb fst snd fdev with_dev ram].
    assert (Hfit : off + size = tail) by nia.
    rewrite (to_uint_small (off + size)), (to_int_small (off + size)) by lia.
    repeat apply conj; try reflexivity.
    intros a.
    destruct (in_range_cases pos size a) as [[Ha Ea] | [Ha Ea]]; rewrite Ea;
    [| destruct (in_range_cases (scratch * NAND_BLOCK_SIZE) NAND_BLOCK_SIZE a)
           as [[Hk Ek] | [Hk Ek]];
       rewrite Ek ];
    mem_unfold; ranges; mem_done.
  - apply Z.eqb_neq in E.
    assert (HslB' : s * NAND_BLOCK_SIZE + NAND_BLOCK_SIZE <= l * NAND_BLOCK_SIZE)
      by nia.
    cbn [fst snd fdev with_dev ram].
    assert (Hmod : (off + size) mod NAND_BLOCK_SIZE = tail).
    { unfold tail.
      replace (pos + size) with (off + size + s * NAND_BLOCK_SIZE) by lia.
      rewrite Z_mod_plus_full. reflexivity. }
    rewrite (to_uint_small (off + size)) by lia.
    rewrite Hmod, (to_int_small tail) by lia.
    match goal with
    | |- context [write_whole_blocks cfg ?n ?m4 ?bk ?buf] =>
        pose proof (write_whole_blocks_spec n m4 bk buf) as W;
        destruct (write_whole_blocks cfg n m4 bk buf) as [[err m5] buff2]
    end.
    cbv zeta in W. cbn [fst snd fdev with_dev ram] in W.
    rewrite Z2Nat.id in W by lia.
    destruct W as (W1 & W2 & W3 & W4 & W5 & W6). subst err buff2.
    cbn [Z.eqb negb fst snd fdev with_dev ram].
    repeat apply conj; try reflexivity.
    + exact W3.
    + exact W4.
    + rewrite log_copy_block, log_copy, log_write, log_erase, W5.
      rewrite log_copy_block, log_write, log_copy, log_erase.
      cbn [app]. rewrite <- app_assoc. reflexivity.
    + intros a.
      destruct (in_range_cases pos size a) as [[Ha Ea] | [Ha Ea]]; rewrite Ea;
      [| destruct (in_range_cases (scratch * NAND_BLOCK_SIZE) NAND_BLOCK_SIZE a)
           as [[Hk Ek] | [Hk Ek]];
         rewrite Ek ];
      mem_unfold; rewrite ?W6; mem_unfold; ranges;
      rewrite ?byte_at_advance by lia; mem_done.
Qed.

End BufferedWrite.

(** *** Consequences for the written range and its surroundings *)

Section BufferedWriteFacts.

Variable m : machine.
Variable pos : Z.
Variable buff : list Z.
Variable size : Z.
Variable scratch : Z.

Hypothesis pos_nonneg : 0 <= pos.
Hypothesis size_nonneg : 0 <= size.
Hypothesis end_fits : pos + size < 2 ^ 31.
Hypothesis scratch_apart :
  scratch < pos / NAND_BLOCK_SIZE \/ (pos + size) / NAND_BLOCK_SIZE < scratch.

Let m' := snd (dfs_write_buffered cfg m pos buff size scratch).

Lemma buffered_write_inside (a : Z) :
  pos <= a < pos + size ->
  fl_mem (fdev m') a = byte_at buff (a - pos).
Proof.
  intros Ha.
  destruct (dfs_write_buffered_flash m pos buff size scratch)
    as (_ & _ & _ & _ & Hmem); try assumption.
  unfold m'. rewrite Hmem. unfold written_mem.
  rewrite in_range_true by lia. reflexivity.
Qed.

Lemma buffered_write_outside (a : Z) :
  a < pos \/ pos + size <= a ->
  a < scratch * NAND_BLOCK_SIZE
  \/ scratch * NAND_BLOCK_SIZE + NAND_BLOCK_SIZE <= a ->
  fl_mem (fdev m') a = fl_mem (fdev m) a.
Proof.
  intros Ha Hk.
  destruct (dfs_write_buffered_flash m pos buff size scratch)
    as (_ & _ & _ & _ & Hmem); try assumption.
  unfold m'. rewrite Hmem. unfold written_mem.
  rewrite !in_range_false by lia. reflexivity.
Qed.

(** The blocks from that of [pos] to that of [pos + size] lie apart from
    the scratch block. *)
Lemma touched_apart (a : Z) :
  pos / NAND_BLOCK_SIZE * NAND_BLOCK_SIZE <= a
  < (pos + size) / NAND_BLOCK_SIZE * NAND_BLOCK_SIZE + NAND_BLOCK_SIZE ->
  a < scratch * NAND_BLOCK_SIZE
  \/ scratch * NAND_BLOCK_SIZE + NAND_BLOCK_SIZE <= a.
Proof.
  pose proof block_size_pos as HB. intros Ha.
  assert (pos / NAND_BLOCK_SIZE <= (pos + size) / NAND_BLOCK_SIZE)
    by (apply Z.div_le_mono; lia).
  destruct scratch_apart as [H1 | H1]; [right | left]; nia.
Qed.

Lemma buffered_write_read_back :
  List.length buff = Z.to_nat size ->
  snd (flash_read_aligned (fdev m') pos size) = buff.
Proof.
  intros Hlen. unfold flash_read_aligned. cbn [snd].
  replace size with (Z.of_nat (List.length buff)) at 1 by lia.
  apply (flash_bytes_eq m' pos buff).
  intros i Hi. rewrite buffered_write_inside by lia. f_equal. lia.
Qed.

End BufferedWriteFacts.

(** *** Counting the operations of a buffered write *)

Lemma filter_whole_blocks_erases (f : flash_op -> bool) (n : nat) :
  forall bk,
    (forall i, bk <= i < bk + Z.of_nat n -> f (OpErase i) = true) ->
    (forall off len, f (OpWrite off len) = false) ->
    List.length (filter f (whole_blocks_ops cfg n bk)) = n.
Proof.
  induction n as [| n IH]; intros bk He Hw.
  - reflexivity.
  - cbn [whole_blocks_ops]. rewrite filter_app, length_app.
    rewrite IH by (intros; try apply He; try apply Hw; lia).
    cbn [filter]. rewrite Hw, He by lia. simpl. lia.
Qed.

(** What one round of the loop adds to the log. *)
Lemma whole_blocks_ops_step (n : nat) (bk : Z) :
  whole_blocks_ops cfg (S n) bk =
  whole_blocks_ops cfg n (bk + 1)
  ++ [OpWrite (bk * NAND_BLOCK_SIZE) NAND_BLOCK_SIZE; OpErase bk].
Proof. reflexivity. Qed.

Lemma filter_whole_blocks_none (f : flash_op -> bool) (n : nat) :
  forall bk,
    (forall i, bk <= i < bk + Z.of_nat n ->
       filter f [OpWrite (i * NAND_BLOCK_SIZE) NAND_BLOCK_SIZE; OpErase i]
       = []) ->
    filter f (whole_blocks_ops cfg n bk) = [].
Proof.
  induction n as [| n IH]; intros bk Hf.
  - reflexivity.
  - rewrite whole_blocks_ops_step, filter_app.
    rewrite IH by (intros; apply Hf; lia).
    rewrite Hf by lia. reflexivity.
Qed.

(** A test that holds once in the round of block [j] and in no other
    round holds once in the whole loop. *)
Lemma filter_whole_blocks_one (f : flash_op -> bool) (n : nat) :
  forall bk j,
    bk <= j < bk + Z.of_nat n ->
    (forall i, bk <= i < bk + Z.of_nat n ->
       List.length
         (filter f [OpWrite (i * NAND_BLOCK_SIZE) NAND_BLOCK_SIZE; OpErase i])
       = if i =? j then 1%nat else 0%nat) ->
    List.length (filter f (whole_blocks_ops cfg n bk)) = 1%nat.
Proof.
  induction n as [| n IH]; intros bk j Hj Hf.
  - lia.
  - rewrite whole_blocks_ops_step, filter_app, length_app.
    rewrite Hf by lia.
    destruct (Z.eqb_spec bk j) as [-> | Hne].
    + rewrite filter_whole_blocks_none.
      * reflexivity.
      * intros i Hi. specialize (Hf i ltac:(lia)).
        replace (i =? j) with false in Hf
          by (symmetry; apply Z.eqb_neq; lia).
        apply length_zero_iff_nil. exact Hf.
    + rewrite (IH (bk + 1) j).
      * reflexivity.
      * lia.
      * intros i Hi. apply Hf. lia.
Qed.

Section BufferedWriteOps.

Variable pos : Z.
Variable size : Z.
Variable scratch : Z.

Hypothesis pos_nonneg : 0 <= pos.
Hypothesis size_nonneg : 0 <= size.
Hypothesis scratch_apart :
  scratch < pos / NAND_BLOCK_SIZE \/ (pos + size) / NAND_BLOCK_SIZE < scratch.

(** One erase for each block from that of [pos] to that of [pos + size]. *)
Lemma buffered_write_erase_count :
  persistent_erases scratch (buffered_write_ops cfg pos size scratch) =
  (pos + size) / NAND_BLOCK_SIZE - pos / NAND_BLOCK_SIZE + 1.
Proof.
  pose proof block_size_pos as HB.
  assert (Hsl : pos / NAND_BLOCK_SIZE <= (pos + size) / NAND_BLOCK_SIZE)
    by (apply Z.div_le_mono; lia).
  unfold persistent_erases, buffered_write_ops. cbv zeta.
  set (s := pos / NAND_BLOCK_SIZE) in *.
  set (l := (pos + size) / NAND_BLOCK_SIZE) in *.
  destruct (Z.eqb_spec s l) as [E | E].
  - cbn [filter is_persistent_erase]. rewrite Z.eqb_refl.
    replace (l =? scratch) with false by (symmetry; apply Z.eqb_neq; lia).
    simpl. lia.
  - rewrite !filter_app, !length_app.
    rewrite filter_whole_blocks_erases.
    + cbn [filter is_persistent_erase]. rewrite Z.eqb_refl.
      replace (l =? scratch) with false by (symmetry; apply Z.eqb_neq; lia).
      replace (s =? scratch) with false by (symmetry; apply Z.eqb_neq; lia).
      simpl. lia.
    + intros i Hi. cbn [is_persistent_erase].
      apply negb_true_iff, Z.eqb_neq. lia.
    + reflexivity.
Qed.

(** A block strictly between the two ends is erased once and written
    once. *)
Lemma buffered_write_middle_block (bk : Z) :
  pos / NAND_BLOCK_SIZE < bk < (pos + size) / NAND_BLOCK_SIZE ->
  count_ops (is_erase_of bk) (buffered_write_ops cfg pos size scratch) = 1
  /\ count_ops (is_write_into cfg bk)
       (buffered_write_ops cfg pos size scratch) = 1.
Proof.
  pose proof block_size_pos as HB. intros Hbk.
  pose proof (Z.mod_pos_bound pos NAND_BLOCK_SIZE HB) as Hoff.
  pose proof (Z.mod_pos_bound (pos + size) NAND_BLOCK_SIZE HB) as Htail.
  unfold count_ops, buffered_write_ops. cbv zeta.
  set (s := pos / NAND_BLOCK_SIZE) in *.
  set (l := (pos + size) / NAND_BLOCK_SIZE) in *.
  set (off := pos mod NAND_BLOCK_SIZE) in *.
  set (tail := (pos + size) mod NAND_BLOCK_SIZE) in *.
  assert (Hsc : scratch * NAND_BLOCK_SIZE + NAND_BLOCK_SIZE
                <= s * NAND_BLOCK_SIZE
                \/ l * NAND_BLOCK_SIZE + NAND_BLOCK_SIZE
                   <= scratch * NAND_BLOCK_SIZE) by nia.
  assert (Hb1 : s * NAND_BLOCK_SIZE + NAND_BLOCK_SIZE <= bk * NAND_BLOCK_SIZE)
    by nia.
  assert (Hb2 : bk * NAND_BLOCK_SIZE + NAND_BLOCK_SIZE <= l * NAND_BLOCK_SIZE)
    by nia.
  destruct (Z.eqb_spec s l) as [E | E]; [lia |].
  assert (Hwr : forall off' len',
             (off' + len' <= bk * NAND_BLOCK_SIZE
              \/ bk * NAND_BLOCK_SIZE + NAND_BLOCK_SIZE <= off') ->
             is_write_into cfg bk (OpWrite off' len') = false).
  { intros off' len' H. cbn [is_write_into].
    destruct H as [H | H].
    - apply andb_false_iff. right. apply Z.ltb_ge. lia.
    - apply andb_false_iff. left. apply andb_false_iff. right.
      apply Z.ltb_ge. lia. }
  assert (Hne : forall b, b <> bk -> (b =? bk) = false)
    by (intros b Hb; apply Z.eqb_neq; exact Hb).
  assert (Hin : is_write_into cfg bk
                  (OpWrite (bk * NAND_BLOCK_SIZE) NAND_BLOCK_SIZE) = true).
  { cbn [is_write_into]. apply andb_true_iff. split.
    - apply andb_true_iff. split; apply Z.ltb_lt; lia.
    - apply Z.ltb_lt. lia. }
  split.
  - rewrite !filter_app, !length_app.
    rewrite (filter_whole_blocks_one _ _ (s + 1) bk).
    + cbn [filter is_erase_of]. rewrite !Hne by lia. reflexivity.
    + lia.
    + intros i Hi. cbn [filter is_erase_of].
      destruct (i =? bk); reflexivity.
  - rewrite !filter_app, !length_app.
    rewrite (filter_whole_blocks_one _ _ (s + 1) bk).
    + cbn [filter]. rewrite !Hwr by lia. reflexivity.
    + lia.
    + intros i Hi. cbn [filter].
      destruct (Z.eqb_spec i bk) as [-> | Hib].
      * rewrite Hin. reflexivity.
      * rewrite Hwr by nia. reflexivity.
Qed.

End BufferedWriteOps.

(** *** The on-flash encoding *)

Lemma byte_at_app_l (l1 l2 : list Z) (i : Z) :
  0 <= i < Z.of_nat (List.length l1) -> byte_at (l1 ++ l2) i = byte_at l1 i.
Proof. intros H. unfold byte_at. apply app_nth1. lia. Qed.

Lemma byte_at_app_r (l1 l2 : list Z) (i : Z) :
  Z.of_nat (List.length l1) <= i ->
  byte_at (l1 ++ l2) i = byte_at l2 (i - Z.of_nat (List.length l1)).
Proof.
  intros H. unfold byte_at. rewrite app_nth2 by lia. f_equal. lia.
Qed.

Lemma le32_at_app_r (l1 l2 : list Z) (i : Z) :
  Z.of_nat (List.length l1) <= i ->
  le32_at (l1 ++ l2) i = le32_at l2 (i - Z.of_nat (List.length l1)).
Proof.
  intros H. unfold le32_at. rewrite !byte_at_app_r by lia.
  set (n := Z.of_nat (List.length l1)).
  replace (i + 1 - n) with (i - n + 1) by lia.
  replace (i + 2 - n) with (i - n + 2) by lia.
  replace (i + 3 - n) with (i - n + 3) by lia.
  reflexivity.
Qed.

Lemma bytes_combine (v : Z) :
  v mod 256 + 256 * ((v / 256) mod 256) + 65536 * ((v / 65536) mod 256)
  + 16777216 * ((v / 16777216) mod 256) = v mod 2 ^ 32.
Proof.
  change (2 ^ 32) with (256 * (256 * (256 * 256))).
  rewrite (Z.rem_mul_r v 256 (256 * (256 * 256))) by lia.
  rewrite (Z.rem_mul_r (v / 256) 256 (256 * 256)) by lia.
  rewrite (Z.rem_mul_r (v / 256 / 256) 256 256) by lia.
  rewrite !Z.div_div by lia.
  change (256 * 256 * 256) with 16777216. change (256 * 256) with 65536.
  lia.
Qed.

Lemma le32_at_le32 (v : Z) (rest : list Z) :
  le32_at (le32 v ++ rest) 0 = v mod 2 ^ 32.
Proof.
  unfold le32_at, le32, byte_at. cbn [Z.to_nat Z.add Pos.to_nat Pos.iter_op
    Nat.add app nth]. apply bytes_combine.
Qed.

Lemma length_le32 (v : Z) : List.length (le32 v) = 4%nat.
Proof. reflexivity. Qed.

Lemma length_fit (n : Z) (l : list Z) : List.length (fit n l) = Z.to_nat n.
Proof.
  unfold fit. rewrite length_firstn, length_app, repeat_length. lia.
Qed.

Lemma fit_exact (n : Z) (l : list Z) :
  List.length l = Z.to_nat n -> fit n l = l.
Proof.
  intros H. unfold fit. rewrite <- H. rewrite firstn_app, Nat.sub_diag.
  rewrite firstn_all. cbn [firstn]. apply app_nil_r.
Qed.

Lemma length_encode_sb (s : dfs_sb_info) :
  List.length (encode_sb s) = Z.to_nat sizeof_sb_info.
Proof. reflexivity. Qed.

Lemma length_encode_dirent (d : dfs_dir_entry) :
  0 <= DFS_NAME_LEN ->
  List.length (encode_dirent cfg d) = Z.to_nat (sizeof_dir_entry cfg).
Proof.
  intros H. unfold encode_dirent, sizeof_dir_entry.
  rewrite !length_app, length_fit, !length_le32. lia.
Qed.

(** Reading fields at constant offsets of a buffer given by its bytes. *)
Ltac field_bytes :=
  unfold le32_at, le32, byte_at;
  repeat match goal with
  | |- context [Z.pos ?p + Z.pos ?q] =>
      let r := eval compute in (Z.pos p + Z.pos q) in
      change (Z.pos p + Z.pos q) with r
  | |- context [0 + Z.pos ?q] => change (0 + Z.pos q) with (Z.pos q)
  | |- context [Z.to_nat (Z.pos ?p)] =>
      let n := eval compute in (Z.to_nat (Z.pos p)) in
      change (Z.to_nat (Z.pos p)) with n
  | |- context [Z.to_nat 0] => change (Z.to_nat 0) with 0%nat
  end;
  cbn [app nth].

Lemma decode_encode_sb (s : dfs_sb_info) (rest : list Z) :
  sb_representable s -> decode_sb (encode_sb s ++ rest) = s.
Proof.
  intros (Hm & H1 & H2 & H3 & H4 & H5).
  destruct s as [mg ic mic ml bb fs]. cbn [magic inode_count max_inode_count
    max_len buff_bk free_space] in *.
  destruct mg as [| a [| b [| c mg]]]; try discriminate.
  unfold decode_sb, encode_sb. cbn [magic inode_count max_inode_count
    max_len buff_bk free_space].
  field_bytes. rewrite !bytes_combine, !Z.mod_small by lia. reflexivity.
Qed.

Lemma decode_encode_dirent (d : dfs_dir_entry) :
  0 <= DFS_NAME_LEN ->
  dirent_representable cfg d -> decode_dirent cfg (encode_dirent cfg d) = d.
Proof.
  intros Hn (Hm & H1 & H2 & H3).
  destruct d as [nm ps ln fl]. cbn [name pos_start len flags] in *.
  unfold decode_dirent, encode_dirent. cbn [name pos_start len flags].
  rewrite fit_exact by exact Hm.
  rewrite !(le32_at_app_r nm) by lia.
  replace (DFS_NAME_LEN - Z.of_nat (List.length nm)) with 0 by lia.
  replace (DFS_NAME_LEN + 4 - Z.of_nat (List.length nm)) with 4 by lia.
  replace (DFS_NAME_LEN + 8 - Z.of_nat (List.length nm)) with 8 by lia.
  rewrite <- Hm, firstn_app, Nat.sub_diag, firstn_all. cbn [firstn].
  rewrite app_nil_r.
  field_bytes. rewrite !bytes_combine, !Z.mod_small by lia. reflexivity.
Qed.

(** *** Metadata on a device with a flash block as scratch *)

Lemma dentry_offset_bounds (n : Z) :
  0 <= n -> 0 <= DFS_NAME_LEN ->
  sizeof_sb_info <= DFS_DENTRY_OFFSET cfg n
  /\ DFS_DENTRY_OFFSET cfg (n + 1)
     = DFS_DENTRY_OFFSET cfg n + sizeof_dir_entry cfg
  /\ 0 < sizeof_dir_entry cfg.
Proof.
  intros Hn Hl. unfold DFS_DENTRY_OFFSET, sizeof_dir_entry, sizeof_sb_info.
  repeat apply conj; nia.
Qed.

Lemma dentry_offset_mono (i j : Z) :
  0 <= DFS_NAME_LEN -> i <= j ->
  DFS_DENTRY_OFFSET cfg i <= DFS_DENTRY_OFFSET cfg j.
Proof.
  intros Hl Hij. unfold DFS_DENTRY_OFFSET, sizeof_dir_entry. nia.
Qed.

Lemma div_below (a k : Z) :
  a < k * NAND_BLOCK_SIZE -> a / NAND_BLOCK_SIZE < k.
Proof.
  intros H. apply Z.div_lt_upper_bound.
  - exact block_size_pos.
  - lia.
Qed.

Lemma dfs_write_dirent_flash (sb : super_block) (n : Z) (d : dfs_dir_entry) :
  0 <= n -> 0 <= DFS_NAME_LEN ->
  DFS_DENTRY_OFFSET cfg (n + 1) < buff_bk (sb_data sb) * NAND_BLOCK_SIZE ->
  DFS_DENTRY_OFFSET cfg (n + 1) < 2 ^ 31 ->
  let r := dfs_write_dirent cfg sb n d in
  fst r = 0
  /\ sb_data (snd r) = sb_data sb
  /\ ram (bdev (snd r)) = ram (bdev sb)
  /\ block_info (fdev (bdev (snd r))) = block_info (fdev (bdev sb))
  /\ forall a,
       a < buff_bk (sb_data sb) * NAND_BLOCK_SIZE ->
       fl_mem (fdev (bdev (snd r))) a =
       if in_range (DFS_DENTRY_OFFSET cfg n) (sizeof_dir_entry cfg) a
       then byte_at (encode_dirent cfg d) (a - DFS_DENTRY_OFFSET cfg n)
       else fl_mem (fdev (bdev sb)) a.
Proof.
  intros Hn Hl Hk H31.
  destruct (dentry_offset_bounds n Hn Hl) as (Hlo & Hnext & Hsz).
  unfold sizeof_sb_info in Hlo.
  unfold dfs_write_dirent.
  rewrite (to_uint_small (DFS_DENTRY_OFFSET cfg n)) by lia.
  rewrite (to_int_small (DFS_DENTRY_OFFSET cfg n)) by lia.
  set (K := buff_bk (sb_data sb)) in *.
  pose proof (dfs_write_buffered_flash (bdev sb) (DFS_DENTRY_OFFSET cfg n)
                (encode_dirent cfg d) (sizeof_dir_entry cfg) K) as W.
  cbv zeta in W.
  destruct W as (W1 & W2 & W3 & W4 & W5); try lia.
  { right. apply div_below. lia. }
  destruct (dfs_write_buffered cfg (bdev sb) (DFS_DENTRY_OFFSET cfg n)
              (encode_dirent cfg d) (sizeof_dir_entry cfg) K) as [e m'].
  cbn [fst snd] in *. cbv zeta. cbn [fst snd with_bdev sb_data bdev].
  repeat apply conj; try reflexivity; try assumption.
  intros a Ha. rewrite W5. unfold written_mem.
  rewrite (in_range_false (K * NAND_BLOCK_SIZE)) by lia.
  reflexivity.
Qed.

Lemma dfs_write_sb_info_flash (sb : super_block) (sbi : dfs_sb_info) :
  sizeof_sb_info < buff_bk sbi * NAND_BLOCK_SIZE ->
  let r := dfs_write_sb_info cfg sb sbi in
  fst r = 0
  /\ sb_data (snd r) = sb_data sb
  /\ ram (bdev (snd r)) = ram (bdev sb)
  /\ block_info (fdev (bdev (snd r))) = block_info (fdev (bdev sb))
  /\ forall a,
       a < buff_bk sbi * NAND_BLOCK_SIZE ->
       fl_mem (fdev (bdev (snd r))) a =
       if in_range 0 sizeof_sb_info a then byte_at (encode_sb sbi) a
       else fl_mem (fdev (bdev sb)) a.
Proof.
  intros Hk. unfold sizeof_sb_info in *.
  unfold dfs_write_sb_info.
  set (K := buff_bk sbi) in *.
  pose proof (dfs_write_buffered_flash (bdev sb) 0 (encode_sb sbi)
                sizeof_sb_info K) as W.
  cbv zeta in W. unfold sizeof_sb_info in W.
  destruct W as (W1 & W2 & W3 & W4 & W5); try lia.
  { right. apply div_below. lia. }
  unfold sizeof_sb_info.
  destruct (dfs_write_buffered cfg (bdev sb) 0 (encode_sb sbi) 24 K)
    as [e m'].
  cbn [fst snd] in *. cbv zeta. cbn [fst snd with_bdev sb_data bdev].
  repeat apply conj; try reflexivity; try assumption.
  intros a Ha. rewrite W5. unfold written_mem.
  rewrite (in_range_false (K * NAND_BLOCK_SIZE)) by lia.
  replace (a - 0) with a by lia. reflexivity.
Qed.

(** [dfs_read_dirent] sees the bytes of its slot only. *)
Lemma dfs_read_dirent_bytes (sb : super_block) (n : Z) :
  dfs_read_dirent cfg sb n =
  let dtr := decode_dirent cfg
               (flash_bytes (bdev sb) (to_uint (DFS_DENTRY_OFFSET cfg n))
                  (sizeof_dir_entry cfg)) in
  if byte_at (name dtr) 0 =? 0 then (- ENOENT, dtr) else (0, dtr).
Proof. reflexivity. Qed.

Lemma dfs_read_dirent_same (sb sb' : super_block) (n : Z) :
  (forall a,
     to_uint (DFS_DENTRY_OFFSET cfg n) <= a
     < to_uint (DFS_DENTRY_OFFSET cfg n) + sizeof_dir_entry cfg ->
     fl_mem (fdev (bdev sb')) a = fl_mem (fdev (bdev sb)) a) ->
  dfs_read_dirent cfg sb' n = dfs_read_dirent cfg sb n.
Proof.
  intros H. rewrite !dfs_read_dirent_bytes.
  rewrite (flash_bytes_ext (bdev sb') (bdev sb)) by exact H.
  reflexivity.
Qed.

Lemma dfs_read_dirent_written (sb : super_block) (n : Z) (d : dfs_dir_entry) :
  0 <= n -> 0 <= DFS_NAME_LEN -> DFS_DENTRY_OFFSET cfg n < 2 ^ 32 ->
  dirent_representable cfg d ->
  (forall a,
     DFS_DENTRY_OFFSET cfg n <= a
     < DFS_DENTRY_OFFSET cfg n + sizeof_dir_entry cfg ->
     fl_mem (fdev (bdev sb)) a
     = byte_at (encode_dirent cfg d) (a - DFS_DENTRY_OFFSET cfg n)) ->
  snd (dfs_read_dirent cfg sb n) = d.
Proof.
  intros Hn Hl H32 Hd H.
  destruct (dentry_offset_bounds n Hn Hl) as (Hlo & Hnext & Hsz).
  unfold sizeof_sb_info in Hlo.
  rewrite dfs_read_dirent_bytes. cbv zeta.
  rewrite to_uint_small by lia.
  assert (E : flash_bytes (bdev sb) (DFS_DENTRY_OFFSET cfg n)
                (sizeof_dir_entry cfg) = encode_dirent cfg d).
  { replace (sizeof_dir_entry cfg)
      with (Z.of_nat (List.length (encode_dirent cfg d)))
      by (rewrite length_encode_dirent; lia).
    apply flash_bytes_eq. intros i Hi.
    rewrite length_encode_dirent in Hi by lia.
    rewrite H by lia. f_equal. lia. }
  rewrite E, decode_encode_dirent by assumption.
  destruct (byte_at (name d) 0 =? 0); reflexivity.
Qed.

(** *** C strings *)

Lemma cstr_c_string (s : list Z) : c_string s -> cstr s = s.
Proof.
  induction 1 as [| c t Hc Ht IH].
  - reflexivity.
  - cbn [cstr]. destruct (Z.eqb_spec c 0) as [E | E]; [contradiction |].
    rewrite IH. reflexivity.
Qed.

Lemma cstr_app_nul (s rest : list Z) :
  c_string s -> cstr (s ++ 0 :: rest) = s.
Proof.
  induction 1 as [| c t Hc Ht IH].
  - reflexivity.
  - cbn [cstr app]. destruct (Z.eqb_spec c 0) as [E | E]; [contradiction |].
    rewrite IH. reflexivity.
Qed.

Lemma c_string_cstr (s : list Z) : c_string (cstr s).
Proof.
  induction s as [| c t IH].
  - constructor.
  - cbn [cstr]. destruct (Z.eqb_spec c 0) as [E | E].
    + constructor.
    + constructor; assumption.
Qed.

Lemma length_cstr (s : list Z) : (List.length (cstr s) <= List.length s)%nat.
Proof.
  induction s as [| c t IH].
  - reflexivity.
  - cbn [cstr]. destruct (c =? 0); simpl; lia.
Qed.

Lemma cstr_nul_first (s : list Z) : byte_at s 0 = 0 -> cstr s = [].
Proof.
  destruct s as [| c t]; [reflexivity |].
  unfold byte_at. cbn [Z.to_nat nth cstr]. intros ->. reflexivity.
Qed.

Lemma strcmp_zero_iff (s1 : list Z) :
  forall s2, strcmp s1 s2 = 0 <-> cstr s1 = cstr s2.
Proof.
  induction s1 as [| c1 t1 IH]; intros [| c2 t2]; cbn [strcmp cstr].
  - tauto.
  - destruct (Z.eqb_spec c2 0) as [E | E].
    + subst. tauto.
    + split; [lia | discriminate].
  - destruct (Z.eqb_spec c1 0) as [E | E].
    + subst. tauto.
    + split; [lia | discriminate].
  - destruct (Z.eqb_spec c1 c2) as [E | E].
    + subst c2. destruct (Z.eqb_spec c1 0) as [E0 | E0].
      * tauto.
      * rewrite IH. split; [intros ->; reflexivity | intros H; injection H; auto].
    + destruct (Z.eqb_spec c1 0) as [E1 | E1];
        destruct (Z.eqb_spec c2 0) as [E2 | E2].
      * lia.
      * split; [lia | discriminate].
      * split; [lia | discriminate].
      * split; [lia | intros H; injection H; intros; contradiction].
Qed.

Lemma firstn_repeat (x : Z) (k : nat) :
  forall n, firstn k (repeat x n) = repeat x (Nat.min k n).
Proof.
  induction k as [| k IH]; intros [| n]; try reflexivity.
  cbn [repeat firstn Nat.min]. rewrite IH. reflexivity.
Qed.

Lemma skipn_repeat (x : Z) (k : nat) :
  forall n, skipn k (repeat x n) = repeat x (n - k).
Proof.
  induction k as [| k IH]; intros [| n]; try reflexivity.
  cbn [repeat skipn Nat.sub]. apply IH.
Qed.

Lemma cstr_fit (n : Z) (s : list Z) :
  c_string s -> Z.of_nat (List.length s) <= n -> cstr (fit n s) = s.
Proof.
  intros Hs Hn. unfold fit.
  rewrite firstn_app.
  rewrite firstn_all2 by lia.
  rewrite firstn_repeat.
  destruct (Nat.min (Z.to_nat n - List.length s) (Z.to_nat n)) as [| k].
  - cbn [repeat]. rewrite app_nil_r. apply cstr_c_string. exact Hs.
  - cbn [repeat]. apply cstr_app_nul. exact Hs.
Qed.

(** The name array that [dfs_icreate] fills. *)
Lemma new_dirent_name (sbi : dfs_sb_info) (ino : inode) (nm : list Z) :
  c_string nm -> Z.of_nat (List.length nm) < DFS_NAME_LEN ->
  name (new_dirent cfg sbi ino nm)
  = nm ++ 0 :: repeat 0 (Z.to_nat DFS_NAME_LEN - List.length nm - 1).
Proof.
  intros Hs Hn. cbn [new_dirent name]. unfold strcpy. cbv zeta.
  rewrite cstr_c_string by exact Hs.
  rewrite skipn_repeat, length_app. cbn [List.length].
  rewrite <- app_assoc. cbn [app].
  replace (Z.to_nat DFS_NAME_LEN - (List.length nm + 1))%nat
    with (Z.to_nat DFS_NAME_LEN - List.length nm - 1)%nat by lia.
  apply firstn_all2.
  rewrite length_app. cbn [List.length]. rewrite repeat_length. lia.
Qed.

Lemma new_dirent_name_length (sbi : dfs_sb_info) (ino : inode) (nm : list Z) :
  c_string nm -> Z.of_nat (List.length nm) < DFS_NAME_LEN ->
  List.length (name (new_dirent cfg sbi ino nm)) = Z.to_nat DFS_NAME_LEN.
Proof.
  intros Hs Hn. rewrite new_dirent_name by assumption.
  rewrite length_app. cbn [List.length]. rewrite repeat_length. lia.
Qed.

Lemma new_dirent_cstr (sbi : dfs_sb_info) (ino : inode) (nm : list Z) :
  c_string nm -> Z.of_nat (List.length nm) < DFS_NAME_LEN ->
  cstr (name (new_dirent cfg sbi ino nm)) = nm.
Proof.
  intros Hs Hn. rewrite new_dirent_name by assumption.
  apply cstr_app_nul. exact Hs.
Qed.

(** The name array survives the encoding whatever the other fields hold. *)
Lemma decode_encode_name (d : dfs_dir_entry) :
  List.length (name d) = Z.to_nat DFS_NAME_LEN ->
  name (decode_dirent cfg (encode_dirent cfg d)) = name d.
Proof.
  intros H. unfold decode_dirent, encode_dirent. cbn [name].
  rewrite fit_exact by exact H.
  rewrite <- H, firstn_app, Nat.sub_diag, firstn_all. cbn [firstn].
  apply app_nil_r.
Qed.

Lemma decode_encode_fields (d : dfs_dir_entry) :
  0 <= DFS_NAME_LEN ->
  pos_start (decode_dirent cfg (encode_dirent cfg d)) = pos_start d mod 2 ^ 32
  /\ len (decode_dirent cfg (encode_dirent cfg d)) = len d mod 2 ^ 32
  /\ flags (decode_dirent cfg (encode_dirent cfg d)) = flags d mod 2 ^ 32.
Proof.
  intros Hn.
  unfold decode_dirent, encode_dirent. cbn [pos_start len flags].
  rewrite !(le32_at_app_r (fit DFS_NAME_LEN (name d)))
    by (rewrite length_fit; lia).
  rewrite length_fit.
  replace (DFS_NAME_LEN - Z.of_nat (Z.to_nat DFS_NAME_LEN)) with 0 by lia.
  replace (DFS_NAME_LEN + 4 - Z.of_nat (Z.to_nat DFS_NAME_LEN)) with 4 by lia.
  replace (DFS_NAME_LEN + 8 - Z.of_nat (Z.to_nat DFS_NAME_LEN)) with 8 by lia.
  field_bytes. rewrite !bytes_combine. repeat apply conj; reflexivity.
Qed.

(** *** The entry that dfs_icreate builds *)

(** A name whose characters and NUL fit the name array stays inside it:
    after the [strcpy] the struct holds the bytes of [new_dirent]. *)
Lemma strcpy_inside_name (sbi : dfs_sb_info) (ino : inode) (nm : list Z) :
  Z.of_nat (List.length (cstr nm)) < DFS_NAME_LEN ->
  strcpy
    (encode_dirent cfg
       {| name := repeat 0 (Z.to_nat DFS_NAME_LEN);
          pos_start := free_space sbi;
          len := 0;
          flags := Z.land (i_mode ino) S_IFMT |}) nm
  = encode_dirent cfg (new_dirent cfg sbi ino nm).
Proof.
  intros Hfit. unfold encode_dirent, new_dirent, strcpy.
  cbn [name pos_start len flags]. cbv zeta.
  set (s := cstr nm ++ [0]).
  set (R := le32 (free_space sbi) ++ le32 0
            ++ le32 (Z.land (i_mode ino) S_IFMT)).
  assert (Hs : (List.length s <= Z.to_nat DFS_NAME_LEN)%nat).
  { unfold s. rewrite length_app. cbn [List.length]. lia. }
  rewrite (fit_exact DFS_NAME_LEN (repeat 0 (Z.to_nat DFS_NAME_LEN)))
    by apply repeat_length.
  rewrite skipn_app, repeat_length.
  replace (List.length s - Z.to_nat DFS_NAME_LEN)%nat with 0%nat by lia.
  cbn [skipn].
  assert (HX : List.length
                 (s ++ skipn (List.length s)
                         (repeat 0 (Z.to_nat DFS_NAME_LEN)))
               = Z.to_nat DFS_NAME_LEN).
  { rewrite length_app, length_skipn, repeat_length. lia. }
  rewrite (firstn_all2 (n := Z.to_nat DFS_NAME_LEN)) by lia.
  rewrite fit_exact by exact HX.
  rewrite <- app_assoc. reflexivity.
Qed.

(** The name array of the struct is full whatever the name was. *)
Lemma icreate_dirent_name_length (sbi : dfs_sb_info) (ino : inode)
    (nm : list Z) :
  0 <= DFS_NAME_LEN ->
  List.length (name (icreate_dirent cfg sbi ino nm)) = Z.to_nat DFS_NAME_LEN.
Proof.
  intros Hl. unfold icreate_dirent, decode_dirent. cbv zeta. cbn [name].
  apply firstn_length_le.
  unfold strcpy. cbv zeta.
  rewrite length_app, length_skipn, length_encode_dirent by exact Hl.
  unfold sizeof_dir_entry. lia.
Qed.

Lemma icreate_dirent_name (sbi : dfs_sb_info) (ino : inode) (nm : list Z) :
  Z.of_nat (List.length (cstr nm)) < DFS_NAME_LEN ->
  name (icreate_dirent cfg sbi ino nm) = name (new_dirent cfg sbi ino nm).
Proof.
  intros Hfit. unfold icreate_dirent. cbv zeta.
  rewrite strcpy_inside_name by exact Hfit.
  apply decode_encode_name.
  cbn [new_dirent name]. apply firstn_length_le.
  unfold strcpy. cbv zeta.
  rewrite length_app, length_skipn, repeat_length. lia.
Qed.

(** With such a name the three fields are the ones assigned. *)
Lemma icreate_dirent_fields (sbi : dfs_sb_info) (ino : inode) (nm : list Z) :
  Z.of_nat (List.length (cstr nm)) < DFS_NAME_LEN ->
  0 <= free_space sbi < 2 ^ 32 ->
  pos_start (icreate_dirent cfg sbi ino nm) = free_space sbi
  /\ len (icreate_dirent cfg sbi ino nm) = 0.
Proof.
  intros Hfit Hfs. unfold icreate_dirent. cbv zeta.
  rewrite strcpy_inside_name by exact Hfit.
  destruct (decode_encode_fields (new_dirent cfg sbi ino nm)) as (F1 & F2 & _);
    [lia |].
  rewrite F1, F2. cbn [new_dirent pos_start len].
  split; [apply Z.mod_small; exact Hfs | reflexivity].
Qed.

(** *** Lookup by name *)

Lemma ino_from_path_scan_step (fuel : nat) (sb : super_block)
    (path : list Z) (i : Z) :
  ino_from_path_scan cfg (S fuel) sb path i =
  if slot_matches cfg sb path i then i
  else ino_from_path_scan cfg fuel sb path (i + 1).
Proof.
  cbn [ino_from_path_scan]. unfold slot_matches.
  destruct (dfs_read_dirent cfg sb i) as [r dirent]. reflexivity.
Qed.

(** The scan returns the first matching slot. *)
Lemma ino_from_path_scan_found (fuel : nat) (sb : super_block)
    (path : list Z) :
  forall i n,
    i <= n < i + Z.of_nat fuel ->
    slot_matches cfg sb path n = true ->
    (forall j, i <= j < n -> slot_matches cfg sb path j = false) ->
    ino_from_path_scan cfg fuel sb path i = n.
Proof.
  induction fuel as [| fuel IH]; intros i n Hn Hm Hbefore.
  - lia.
  - rewrite ino_from_path_scan_step.
    destruct (Z.eq_dec i n) as [-> | Hne].
    + rewrite Hm. reflexivity.
    + rewrite Hbefore by lia. apply IH.
      * lia.
      * exact Hm.
      * intros j Hj. apply Hbefore. lia.
Qed.

Lemma ino_from_path_scan_none (fuel : nat) (sb : super_block)
    (path : list Z) :
  forall i,
    (forall j, i <= j < i + Z.of_nat fuel ->
               slot_matches cfg sb path j = false) ->
    ino_from_path_scan cfg fuel sb path i = -1.
Proof.
  induction fuel as [| fuel IH]; intros i Hnone.
  - reflexivity.
  - rewrite ino_from_path_scan_step, Hnone by lia.
    apply IH. intros j Hj. apply Hnone. lia.
Qed.

(** What the scan returns: the lowest matching slot, or -1 when none of
    the slots it visits matches. *)
Lemma ino_from_path_scan_result (fuel : nat) (sb : super_block)
    (path : list Z) :
  forall i,
    let r := ino_from_path_scan cfg fuel sb path i in
    (r = -1
     /\ forall j, i <= j < i + Z.of_nat fuel ->
                  slot_matches cfg sb path j = false)
    \/ (i <= r < i + Z.of_nat fuel
        /\ slot_matches cfg sb path r = true
        /\ forall j, i <= j < r -> slot_matches cfg sb path j = false).
Proof.
  induction fuel as [| fuel IH]; intros i; cbv zeta.
  - left. split; [reflexivity | intros j Hj; lia].
  - rewrite ino_from_path_scan_step.
    destruct (slot_matches cfg sb path i) eqn:E.
    + right. repeat apply conj; try lia; try assumption.
    + destruct (IH (i + 1)) as [[H1 H2] | (H1 & H2 & H3)].
      * left. split; [exact H1 |].
        intros j Hj. destruct (Z.eq_dec j i) as [-> | Hne];
          [exact E | apply H2; lia].
      * right. repeat apply conj; try lia; try assumption.
        intros j Hj. destruct (Z.eq_dec j i) as [-> | Hne];
          [exact E | apply H3; lia].
Qed.

Lemma slot_matches_same (sb sb' : super_block) (path : list Z) (i : Z) :
  dfs_read_dirent cfg sb' i = dfs_read_dirent cfg sb i ->
  slot_matches cfg sb' path i = slot_matches cfg sb path i.
Proof. intros H. unfold slot_matches. rewrite H. reflexivity. Qed.

(** A slot that does not match a non-empty name holds another string. *)
Lemma slot_matches_false_cstr (sb : super_block) (nm : list Z) (i : Z) :
  c_string nm -> nm <> [] ->
  slot_matches cfg sb nm i = false ->
  cstr (name (snd (dfs_read_dirent cfg sb i))) <> nm.
Proof.
  intros Hs Hne Hm Heq. unfold slot_matches in Hm.
  rewrite dfs_read_dirent_bytes in *. cbv zeta in *.
  set (dtr := decode_dirent cfg _) in *.
  destruct (Z.eqb_spec (byte_at (name dtr) 0) 0) as [E | E];
    cbn [fst snd] in *.
  - apply cstr_nul_first in E. rewrite E in Heq. congruence.
  - apply andb_false_iff in Hm. destruct Hm as [Hm | Hm].
    + discriminate.
    + apply Z.eqb_neq in Hm. apply Hm. apply strcmp_zero_iff.
      rewrite Heq. apply cstr_c_string. exact Hs.
Qed.

Lemma slot_matches_true_intro (sb : super_block) (nm : list Z) (i : Z) :
  c_string nm -> nm <> [] ->
  cstr (name (snd (dfs_read_dirent cfg sb i))) = nm ->
  slot_matches cfg sb nm i = true.
Proof.
  intros Hs Hne Heq. unfold slot_matches.
  rewrite dfs_read_dirent_bytes in *. cbv zeta in *.
  set (dtr := decode_dirent cfg _) in *.
  destruct (Z.eqb_spec (byte_at (name dtr) 0) 0) as [E | E];
    cbn [fst snd] in *.
  - apply cstr_nul_first in E. rewrite E in Heq. congruence.
  - cbn [Z.eqb andb]. apply Z.eqb_eq. apply strcmp_zero_iff.
    rewrite Heq. apply cstr_c_string. exact Hs.
Qed.

(** *** Reading the directory *)

Lemma dfs_iterate_scan_step (fuel : nat) (sb : super_block) (i : Z) :
  dfs_iterate_scan cfg (S fuel) sb i =
  if negb (dirent_erased cfg (snd (dfs_read_dirent cfg sb i)))
  then Some (i, snd (dfs_read_dirent cfg sb i))
  else dfs_iterate_scan cfg fuel sb (i + 1).
Proof.
  cbn [dfs_iterate_scan].
  destruct (dfs_read_dirent cfg sb i) as [r dirent]. reflexivity.
Qed.

Lemma dfs_iterate_scan_spec (fuel : nat) (sb : super_block) :
  forall i,
    match dfs_iterate_scan cfg fuel sb i with
    | None => present_entries cfg fuel sb i = []
    | Some (j, dirent) =>
        i <= j < i + Z.of_nat fuel
        /\ dirent = snd (dfs_read_dirent cfg sb j)
        /\ present_entries cfg fuel sb i
           = (j, cstr (strncpy [] (name dirent) NAME_MAX))
             :: present_entries cfg (fuel - Z.to_nat (j - i) - 1) sb (j + 1)
    end.
Proof.
  induction fuel as [| fuel IH]; intros i.
  - reflexivity.
  - rewrite dfs_iterate_scan_step. cbn [present_entries].
    destruct (dirent_erased cfg (snd (dfs_read_dirent cfg sb i))) eqn:E;
      cbn [negb app].
    + specialize (IH (i + 1)).
      destruct (dfs_iterate_scan cfg fuel sb (i + 1)) as [[j dirent] |].
      * destruct IH as (H1 & H2 & H3). repeat apply conj; try lia.
        -- exact H2.
        -- rewrite H3. do 2 f_equal. lia.
      * exact IH.
    + repeat apply conj; try lia.
      * reflexivity.
      * replace (Z.to_nat (i - i)) with 0%nat by lia.
        do 2 f_equal. lia.
Qed.

Lemma enumerate_from (fuel : nat) (sb : super_block) (parent : inode) :
  forall ctx,
    1 <= ctx ->
    (Z.to_nat (length parent - ctx) < fuel)%nat ->
    enumerate cfg fuel sb parent ctx
    = Some (present_entries cfg (Z.to_nat (length parent - ctx)) sb ctx).
Proof.
  induction fuel as [| fuel IH]; intros ctx Hctx Hfuel.
  - lia.
  - cbn [enumerate]. unfold dfs_iterate.
    replace (ctx =? 0) with false by (symmetry; apply Z.eqb_neq; lia).
    pose proof (dfs_iterate_scan_spec (Z.to_nat (length parent - ctx)) sb ctx)
      as S.
    destruct (dfs_iterate_scan cfg (Z.to_nat (length parent - ctx)) sb ctx)
      as [[j dirent] |].
    + destruct S as (H1 & H2 & H3). cbn [Z.eqb i_no].
      rewrite IH by lia. rewrite H3.
      replace (Z.to_nat (length parent - ctx) - Z.to_nat (j - ctx) - 1)%nat
        with (Z.to_nat (length parent - (j + 1))) by lia.
      reflexivity.
    + cbn [Z.eqb]. rewrite S. reflexivity.
Qed.

(** A reading from the start of the directory skips the root slot. *)
Lemma enumerate_root (fuel : nat) (sb : super_block) (parent : inode) :
  (Z.to_nat (length parent - 1) < fuel)%nat ->
  enumerate cfg fuel sb parent 0
  = Some (present_entries cfg (Z.to_nat (length parent - 1)) sb 1).
Proof.
  intros Hfuel. rewrite <- (enumerate_from fuel sb parent 1) by lia.
  destruct fuel as [| fuel]; [lia |].
  cbn [enumerate]. unfold dfs_iterate. cbn [Z.eqb Z.add].
  destruct (dfs_iterate_scan cfg (Z.to_nat (length parent - 1)) sb 1)
    as [[j dirent] |]; reflexivity.
Qed.

(** A name held by the present slot [n] and by no other slot is
    enumerated once. *)
Lemma count_name_present (sb : super_block) (nm : list Z) (n : Z) (k : nat) :
  forall i,
    i <= n < i + Z.of_nat k ->
    dirent_erased cfg (snd (dfs_read_dirent cfg sb n)) = false ->
    cstr (strncpy [] (name (snd (dfs_read_dirent cfg sb n))) NAME_MAX) = nm ->
    (forall j, i <= j < i + Z.of_nat k -> j <> n ->
       cstr (strncpy [] (name (snd (dfs_read_dirent cfg sb j))) NAME_MAX)
       <> nm) ->
    count_name nm (present_entries cfg k sb i) = 1
    /\ In (n, nm) (present_entries cfg k sb i).
Proof.
  unfold count_name.
  assert (Hnone : forall k i,
            (forall j, i <= j < i + Z.of_nat k ->
               cstr (strncpy [] (name (snd (dfs_read_dirent cfg sb j)))
                       NAME_MAX) <> nm) ->
            filter (fun e => if list_eq_dec Z.eq_dec (snd e) nm
                             then true else false)
              (present_entries cfg k sb i) = []).
  { clear k. induction k as [| k IH]; intros i H.
    - reflexivity.
    - cbn [present_entries]. rewrite filter_app.
      rewrite IH by (intros j Hj; apply H; lia).
      destruct (dirent_erased cfg (snd (dfs_read_dirent cfg sb i)));
        cbn [filter snd]; [reflexivity |].
      destruct (list_eq_dec Z.eq_dec _ nm) as [E | E].
      + exfalso. apply (H i); [lia | exact E].
      + reflexivity. }
  induction k as [| k IH]; intros i Hn Hpres Hname Hothers.
  - lia.
  - cbn [present_entries]. rewrite filter_app, length_app.
    destruct (Z.eq_dec i n) as [-> | Hne].
    + rewrite Hpres, Hname. cbn [filter snd].
      destruct (list_eq_dec Z.eq_dec nm nm) as [_ | E]; [| congruence].
      rewrite Hnone by (intros j Hj; apply Hothers; lia).
      split; [reflexivity | left; reflexivity].
    + destruct (IH (i + 1)) as [IH1 IH2]; try assumption; try lia.
      { intros j Hj. apply Hothers. lia. }
      split.
      * destruct (dirent_erased cfg (snd (dfs_read_dirent cfg sb i)));
          cbn [filter snd List.length]; [exact IH1 |].
        destruct (list_eq_dec Z.eq_dec _ nm) as [E | E].
        -- exfalso. apply (Hothers i); [lia | exact Hne | exact E].
        -- exact IH1.
      * apply in_or_app. right. exact IH2.
Qed.

(** *** Creating a file *)

Section Create.

Variable sb : super_block.
Variable ino : inode.
Variable nm : list Z.

Let sbi := sb_on_flash sb.
Let n := inode_count sbi.

Hypothesis name_len_nonneg : 0 <= DFS_NAME_LEN.
Hypothesis slot_nonneg : 0 <= n.
Hypothesis room : n <= max_inode_count sbi.
Hypothesis below_scratch :
  DFS_DENTRY_OFFSET cfg (n + 1) < buff_bk sbi * NAND_BLOCK_SIZE.
Hypothesis small : DFS_DENTRY_OFFSET cfg (n + 1) < 2 ^ 31.

Lemma dfs_icreate_flash :
  let r := dfs_icreate cfg sb (Some ino) nm in
  fst (fst r) = 0
  /\ snd r = Some {| i_no := n;
                     i_data := pos_start (icreate_dirent cfg sbi ino nm);
                     length := 0; i_mode := 0 |}
  /\ sb_data (snd (fst r)) = next_sb cfg sbi
  /\ forall a,
       a < buff_bk sbi * NAND_BLOCK_SIZE ->
       fl_mem (fdev (bdev (snd (fst r)))) a =
       if in_range 0 sizeof_sb_info a
       then byte_at (encode_sb (next_sb cfg sbi)) a
       else if in_range (DFS_DENTRY_OFFSET cfg n) (sizeof_dir_entry cfg) a
       then byte_at (encode_dirent cfg (icreate_dirent cfg sbi ino nm))
              (a - DFS_DENTRY_OFFSET cfg n)
       else fl_mem (fdev (bdev sb)) a.
Proof.
  destruct (dentry_offset_bounds n slot_nonneg name_len_nonneg)
    as (Hlo & Hnext & Hsz).
  unfold sizeof_sb_info in Hlo.
  assert (Hn31 : n < 2 ^ 31).
  { unfold DFS_DENTRY_OFFSET, sizeof_dir_entry, sizeof_sb_info in small.
    nia. }
  unfold dfs_icreate.
  change (dfs_read_sb_info sb) with (0, snd (dfs_read_sb_info sb)).
  cbv beta iota.
  set (sb1 := snd (dfs_read_sb_info sb)).
  change (sb_data sb1) with sbi.
  fold n.
  replace (max_inode_count sbi <? n) with false
    by (symmetry; apply Z.ltb_ge; exact room).
  rewrite (to_int_small n) by lia.
  pose proof (dfs_write_dirent_flash sb1 n (icreate_dirent cfg sbi ino nm)
                slot_nonneg name_len_nonneg below_scratch small) as W.
  cbv zeta in W.
  destruct (dfs_write_dirent cfg sb1 n (icreate_dirent cfg sbi ino nm))
    as [e2 sb2].
  cbn [fst snd] in W. destruct W as (W1 & W2 & W3 & W4 & W5).
  change (mk_sb_info (magic sbi) _ _ _ _ _) with (next_sb cfg sbi).
  set (sb3 := {| sb_data := next_sb cfg sbi; bdev := bdev sb2 |}).
  pose proof (dfs_write_sb_info_flash sb3 (next_sb cfg sbi)) as V.
  cbv zeta in V. cbn [next_sb buff_bk] in V.
  destruct (dfs_write_sb_info cfg sb3 (next_sb cfg sbi)) as [e4 sb4].
  cbn [fst snd] in V.
  destruct V as (V1 & V2 & V3 & V4 & V5).
  { unfold sizeof_sb_info. change (sb_data sb1) with sbi in *. lia. }
  cbv zeta. cbn [fst snd].
  repeat apply conj; try reflexivity.
  - exact V2.
  - intros a Ha. rewrite V5 by exact Ha.
    destruct (in_range 0 sizeof_sb_info a); [reflexivity |].
    subst sb3. cbn [bdev]. rewrite W5 by exact Ha. reflexivity.
Qed.

End Create.

Lemma dfs_read_dirent_encoded (sb : super_block) (n : Z) (d : dfs_dir_entry) :
  0 <= n -> 0 <= DFS_NAME_LEN -> DFS_DENTRY_OFFSET cfg n < 2 ^ 32 ->
  (forall a,
     DFS_DENTRY_OFFSET cfg n <= a
     < DFS_DENTRY_OFFSET cfg n + sizeof_dir_entry cfg ->
     fl_mem (fdev (bdev sb)) a
     = byte_at (encode_dirent cfg d) (a - DFS_DENTRY_OFFSET cfg n)) ->
  snd (dfs_read_dirent cfg sb n) = decode_dirent cfg (encode_dirent cfg d).
Proof.
  intros Hn Hl H32 H.
  destruct (dentry_offset_bounds n Hn Hl) as (Hlo & Hnext & Hsz).
  unfold sizeof_sb_info in Hlo.
  rewrite dfs_read_dirent_bytes. cbv zeta.
  rewrite to_uint_small by lia.
  assert (E : flash_bytes (bdev sb) (DFS_DENTRY_OFFSET cfg n)
                (sizeof_dir_entry cfg) = encode_dirent cfg d).
  { replace (sizeof_dir_entry cfg)
      with (Z.of_nat (List.length (encode_dirent cfg d)))
      by (rewrite length_encode_dirent; lia).
    apply flash_bytes_eq. intros i Hi.
    rewrite length_encode_dirent in Hi by lia.
    rewrite H by lia. f_equal. lia. }
  rewrite E.
  destruct (byte_at (name (decode_dirent cfg (encode_dirent cfg d))) 0 =? 0);
    reflexivity.
Qed.

(** [dfs_iterate] hands out the string of the name array. *)
Lemma enumerated_name (sb : super_block) (j : Z) :
  0 <= DFS_NAME_LEN <= NAME_MAX ->
  cstr (strncpy [] (name (snd (dfs_read_dirent cfg sb j))) NAME_MAX)
  = cstr (name (snd (dfs_read_dirent cfg sb j))).
Proof.
  intros Hl. unfold strncpy. rewrite skipn_nil, app_nil_r.
  apply cstr_fit.
  - apply c_string_cstr.
  - pose proof (length_cstr (name (snd (dfs_read_dirent cfg sb j)))) as H1.
    assert (H2 : (List.length (name (snd (dfs_read_dirent cfg sb j)))
                  <= Z.to_nat DFS_NAME_LEN)%nat).
    { rewrite dfs_read_dirent_bytes. cbv zeta.
      destruct (byte_at _ 0 =? 0); cbn [snd decode_dirent name];
        apply firstn_le_length. }
    lia.
Qed.

(** An entry whose name does not start with 0xFF is not taken as erased. *)
Lemma dirent_not_erased (d : dfs_dir_entry) :
  List.length (name d) = Z.to_nat DFS_NAME_LEN -> 1 <= DFS_NAME_LEN ->
  byte_at (name d) 0 <> ERASED ->
  dirent_erased cfg d = false.
Proof.
  intros Hlen Hn Hb. unfold dirent_erased, encode_dirent.
  rewrite fit_exact by exact Hlen.
  destruct (name d) as [| c t].
  - simpl in Hlen. lia.
  - unfold byte_at in Hb. cbn [Z.to_nat nth] in Hb.
    cbn [app firstn forallb].
    replace (ERASED =? c) with false by (symmetry; apply Z.eqb_neq; congruence).
    reflexivity.
Qed.

(** The slots of the table other than the new one read as before. *)
Lemma dfs_icreate_other_slots (sb : super_block) (ino : inode) (nm : list Z)
    (j : Z) :
  let sbi := sb_on_flash sb in
  let n := inode_count sbi in
  0 <= DFS_NAME_LEN -> 0 <= n -> n <= max_inode_count sbi ->
  DFS_DENTRY_OFFSET cfg (n + 1) < buff_bk sbi * NAND_BLOCK_SIZE ->
  DFS_DENTRY_OFFSET cfg (n + 1) < 2 ^ 31 ->
  0 <= j -> j <> n ->
  DFS_DENTRY_OFFSET cfg (j + 1) < buff_bk sbi * NAND_BLOCK_SIZE ->
  DFS_DENTRY_OFFSET cfg (j + 1) < 2 ^ 31 ->
  dfs_read_dirent cfg (snd (fst (dfs_icreate cfg sb (Some ino) nm))) j
  = dfs_read_dirent cfg sb j.
Proof.
  intros sbi n Hl Hn Hroom Hk H31 Hj Hjn Hjk Hj31.
  destruct (dfs_icreate_flash sb ino nm Hl Hn Hroom Hk H31)
    as (_ & _ & _ & Hmem).
  destruct (dentry_offset_bounds j Hj Hl) as (Hlo & Hnext & Hsz).
  unfold sizeof_sb_info in Hlo.
  apply dfs_read_dirent_same. intros a Ha.
  rewrite to_uint_small in Ha by lia.
  fold sbi in Hmem. fold n in Hmem.
  rewrite Hmem by lia.
  assert (Hdis : DFS_DENTRY_OFFSET cfg j + sizeof_dir_entry cfg
                 <= DFS_DENTRY_OFFSET cfg n
                 \/ DFS_DENTRY_OFFSET cfg n + sizeof_dir_entry cfg
                    <= DFS_DENTRY_OFFSET cfg j).
  { unfold DFS_DENTRY_OFFSET in *. nia. }
  unfold sizeof_sb_info.
  rewrite !in_range_false by lia. reflexivity.
Qed.

(** The new slot reads as the entry built for the name. *)
Lemma dfs_icreate_new_slot (sb : super_block) (ino : inode) (nm : list Z) :
  let sbi := sb_on_flash sb in
  let n := inode_count sbi in
  0 <= DFS_NAME_LEN -> 0 <= n -> n <= max_inode_count sbi ->
  DFS_DENTRY_OFFSET cfg (n + 1) < buff_bk sbi * NAND_BLOCK_SIZE ->
  DFS_DENTRY_OFFSET cfg (n + 1) < 2 ^ 31 ->
  snd (dfs_read_dirent cfg (snd (fst (dfs_icreate cfg sb (Some ino) nm))) n)
  = decode_dirent cfg (encode_dirent cfg (icreate_dirent cfg sbi ino nm)).
Proof.
  intros sbi n Hl Hn Hroom Hk H31.
  destruct (dfs_icreate_flash sb ino nm Hl Hn Hroom Hk H31)
    as (_ & _ & _ & Hmem).
  destruct (dentry_offset_bounds n Hn Hl) as (Hlo & Hnext & Hsz).
  unfold sizeof_sb_info in Hlo.
  apply dfs_read_dirent_encoded; try assumption; try lia.
  intros a Ha. fold sbi in Hmem. fold n in Hmem.
  rewrite Hmem by lia. unfold sizeof_sb_info.
  rewrite (in_range_false 0) by lia.
  rewrite in_range_true by lia. reflexivity.
Qed.

(** *** Create, then look up and enumerate *)

Section CreateLookup.

Variable sb : super_block.
Variable ino : inode.
Variable nm : list Z.

Let sbi := sb_on_flash sb.
Let n := inode_count sbi.
Let sb' := snd (fst (dfs_icreate cfg sb (Some ino) nm)).

Hypothesis name_is_string : c_string nm.
Hypothesis name_not_empty : nm <> [].
Hypothesis name_fits : Z.of_nat (List.length nm) < DFS_NAME_LEN.
Hypothesis slot_nonneg : 0 <= n.
Hypothesis room : n <= max_inode_count sbi.
Hypothesis below_scratch :
  DFS_DENTRY_OFFSET cfg (n + 1) < buff_bk sbi * NAND_BLOCK_SIZE.
Hypothesis small : DFS_DENTRY_OFFSET cfg (n + 1) < 2 ^ 31.

Lemma created_slot_name :
  name (snd (dfs_read_dirent cfg sb' n)) = name (new_dirent cfg sbi ino nm).
Proof.
  unfold sb'. rewrite dfs_icreate_new_slot by (assumption || lia).
  rewrite decode_encode_name by (apply icreate_dirent_name_length; lia).
  apply icreate_dirent_name.
  rewrite cstr_c_string by exact name_is_string. exact name_fits.
Qed.

Lemma created_slot_matches : slot_matches cfg sb' nm n = true.
Proof.
  apply slot_matches_true_intro; try assumption.
  rewrite created_slot_name. apply new_dirent_cstr; assumption.
Qed.

Lemma earlier_slot_same (j : Z) :
  0 <= j < n -> dfs_read_dirent cfg sb' j = dfs_read_dirent cfg sb j.
Proof.
  intros Hj.
  assert (Hl : 0 <= DFS_NAME_LEN) by lia.
  pose proof (dentry_offset_mono (j + 1) (n + 1) Hl ltac:(lia)) as Hm.
  unfold sb', n, sbi in *.
  apply dfs_icreate_other_slots; try assumption; lia.
Qed.

End CreateLookup.



(** *** Truncation *)

Lemma dfs_read_dirent_name_length (sb : super_block) (i : Z) :
  0 <= DFS_NAME_LEN ->
  List.length (name (snd (dfs_read_dirent cfg sb i))) = Z.to_nat DFS_NAME_LEN.
Proof.
  intros Hl. rewrite dfs_read_dirent_bytes. cbv zeta.
  destruct (byte_at _ 0 =? 0); cbn [snd decode_dirent name];
    rewrite length_firstn; unfold flash_bytes;
    rewrite length_map, length_byte_range; unfold sizeof_dir_entry; lia.
Qed.

(** The status of [dfs_read_dirent] is a function of the name it reads. *)
Lemma dfs_read_dirent_status (sb : super_block) (i : Z) :
  fst (dfs_read_dirent cfg sb i)
  = if byte_at (name (snd (dfs_read_dirent cfg sb i))) 0 =? 0
    then - ENOENT else 0.
Proof.
  rewrite dfs_read_dirent_bytes. cbv zeta.
  destruct (byte_at _ 0 =? 0) eqn:E; cbn [fst snd]; rewrite E; reflexivity.
Qed.

Lemma slot_matches_by_name (sb sb' : super_block) (path : list Z) (i : Z) :
  name (snd (dfs_read_dirent cfg sb' i))
  = name (snd (dfs_read_dirent cfg sb i)) ->
  slot_matches cfg sb' path i = slot_matches cfg sb path i.
Proof.
  intros H. unfold slot_matches.
  pose proof (dfs_read_dirent_status sb i) as S1.
  pose proof (dfs_read_dirent_status sb' i) as S2.
  destruct (dfs_read_dirent cfg sb i) as [r1 d1].
  destruct (dfs_read_dirent cfg sb' i) as [r2 d2].
  cbn [fst snd] in *. subst r1 r2. rewrite H. reflexivity.
Qed.

Lemma ino_from_path_scan_same (fuel : nat) (sb sb' : super_block)
    (path : list Z) :
  forall i,
    (forall j, i <= j < i + Z.of_nat fuel ->
       slot_matches cfg sb' path j = slot_matches cfg sb path j) ->
    ino_from_path_scan cfg fuel sb' path i
    = ino_from_path_scan cfg fuel sb path i.
Proof.
  induction fuel as [| fuel IH]; intros i H.
  - reflexivity.
  - rewrite !ino_from_path_scan_step. rewrite H by lia.
    rewrite IH by (intros j Hj; apply H; lia). reflexivity.
Qed.

Section Truncate.

Variable sb : super_block.
Variable ino : inode.
Variable new_len : Z.

Hypothesis name_len_nonneg : 0 <= DFS_NAME_LEN.
Hypothesis new_len_range : 0 <= new_len <= max_len (sb_data sb).
Hypothesis new_len_fits : new_len < 2 ^ 32.
Hypothesis changes : new_len <> length ino.
Hypothesis slot_nonneg : 0 <= i_no ino.
Hypothesis below_scratch :
  DFS_DENTRY_OFFSET cfg (i_no ino + 1)
  < buff_bk (sb_data sb) * NAND_BLOCK_SIZE.
Hypothesis small : DFS_DENTRY_OFFSET cfg (i_no ino + 1) < 2 ^ 31.

Let r := dfs_itruncate cfg sb ino new_len.
Let sb' := snd (fst r).

(** A call with a length other than the recorded one, within
    [0 .. max_len], stores it: in the inode and in the entry on flash. *)
Lemma dfs_itruncate_sets_length :
  fst (fst r) = 0
  /\ snd r = {| i_no := i_no ino; i_data := i_data ino;
                length := new_len; i_mode := i_mode ino |}
  /\ sb_data sb' = sb_data sb
  /\ len (snd (dfs_read_dirent cfg sb' (i_no ino))) = new_len
  /\ name (snd (dfs_read_dirent cfg sb' (i_no ino)))
     = name (snd (dfs_read_dirent cfg sb (i_no ino)))
  /\ forall j, 0 <= j -> j <> i_no ino ->
       DFS_DENTRY_OFFSET cfg (j + 1)
       < buff_bk (sb_data sb) * NAND_BLOCK_SIZE ->
       DFS_DENTRY_OFFSET cfg (j + 1) < 2 ^ 31 ->
       dfs_read_dirent cfg sb' j = dfs_read_dirent cfg sb j.
Proof.
  unfold sb', r, dfs_itruncate.
  replace (new_len <? 0) with false by (symmetry; apply Z.ltb_ge; lia).
  replace (max_len (sb_data sb) <? new_len) with false
    by (symmetry; apply Z.ltb_ge; lia).
  replace (new_len =? length ino) with false
    by (symmetry; apply Z.eqb_neq; exact changes).
  pose proof (dfs_read_dirent_name_length sb (i_no ino) name_len_nonneg)
    as Hnl.
  destruct (dfs_read_dirent cfg sb (i_no ino)) as [e entry].
  cbn [snd] in Hnl.
  set (entry' := mk_dir_entry (name entry) (pos_start entry)
                   (to_uint new_len) (flags entry)).
  pose proof (dfs_write_dirent_flash sb (i_no ino) entry'
                slot_nonneg name_len_nonneg below_scratch small) as W.
  cbv zeta in W.
  destruct (dfs_write_dirent cfg sb (i_no ino) entry') as [e1 sb1].
  cbn [fst snd] in *. destruct W as (W1 & W2 & W3 & W4 & W5).
  destruct (dentry_offset_bounds (i_no ino) slot_nonneg name_len_nonneg)
    as (Hlo & Hnext & Hsz).
  unfold sizeof_sb_info in Hlo.
  assert (Hread : snd (dfs_read_dirent cfg sb1 (i_no ino))
                  = decode_dirent cfg (encode_dirent cfg entry')).
  { apply dfs_read_dirent_encoded; try assumption; try lia.
    intros a Ha. rewrite W5 by lia. rewrite in_range_true by lia.
    reflexivity. }
  repeat apply conj; try reflexivity.
  - exact W2.
  - rewrite Hread.
    destruct (decode_encode_fields entry' name_len_nonneg) as (_ & Hlen & _).
    rewrite Hlen. unfold entry'. cbn [len]. unfold to_uint.
    rewrite Z.mod_mod by lia. apply Z.mod_small. lia.
  - rewrite Hread. rewrite (decode_encode_name entry') by exact Hnl.
    reflexivity.
  - intros j Hj Hjn Hjk Hj31.
    destruct (dentry_offset_bounds j Hj name_len_nonneg)
      as (Hjlo & Hjnext & _).
    unfold sizeof_sb_info in Hjlo.
    apply dfs_read_dirent_same. intros a Ha.
    rewrite to_uint_small in Ha by lia.
    rewrite W5 by lia.
    assert (Hdis : DFS_DENTRY_OFFSET cfg j + sizeof_dir_entry cfg
                   <= DFS_DENTRY_OFFSET cfg (i_no ino)
                   \/ DFS_DENTRY_OFFSET cfg (i_no ino) + sizeof_dir_entry cfg
                      <= DFS_DENTRY_OFFSET cfg j).
    { unfold DFS_DENTRY_OFFSET in *. nia. }
    rewrite in_range_false by lia. reflexivity.
Qed.

End Truncate.

(** A call with the recorded length changes nothing. *)
Lemma dfs_itruncate_same_length (sb : super_block) (ino : inode) :
  0 <= length ino <= max_len (sb_data sb) ->
  dfs_itruncate cfg sb ino (length ino) = (0, sb, ino).
Proof.
  intros H. unfold dfs_itruncate.
  replace (length ino <? 0) with false by (symmetry; apply Z.ltb_ge; lia).
  replace (max_len (sb_data sb) <? length ino) with false
    by (symmetry; apply Z.ltb_ge; lia).
  destruct (dfs_read_dirent cfg sb (i_no ino)) as [e entry].
  rewrite Z.eqb_refl. reflexivity.
Qed.

(** A length outside [0 .. max_len] is refused and nothing is touched. *)
Lemma dfs_itruncate_rejects (sb : super_block) (ino : inode) (new_len : Z) :
  new_len < 0 \/ max_len (sb_data sb) < new_len ->
  dfs_itruncate cfg sb ino new_len = (-1, sb, ino).
Proof.
  intros H. unfold dfs_itruncate.
  destruct (Z.ltb_spec new_len 0) as [H0 | H0]; [reflexivity |].
  destruct (Z.ltb_spec (max_len (sb_data sb)) new_len) as [H1 | H1];
    [reflexivity | lia].
Qed.


(** *** Formatting *)

Lemma format_erase_blocks_spec (n : nat) :
  forall (d : flash_dev) (k : Z),
    let r := format_erase_blocks cfg n d k in
    fst (fst r) = 0
    /\ snd r = k + Z.of_nat n
    /\ block_info (snd (fst r)) = block_info d
    /\ forall a,
         fl_mem (snd (fst r)) a =
         if in_range (k * NAND_BLOCK_SIZE) (Z.of_nat n * NAND_BLOCK_SIZE) a
         then ERASED else fl_mem d a.
Proof.
  induction n as [| n IH]; intros d k; cbv zeta.
  - cbn [format_erase_blocks fst snd]. repeat apply conj; try reflexivity.
    + lia.
    + intros a. rewrite in_range_false by lia. reflexivity.
  - cbn [format_erase_blocks].
    change (flash_erase cfg d k) with (0, snd (flash_erase cfg d k)).
    cbv beta iota. cbn [Z.eqb negb].
    specialize (IH (snd (flash_erase cfg d k)) (k + 1)). cbv zeta in IH.
    destruct IH as (I1 & I2 & I3 & I4).
    repeat apply conj.
    + exact I1.
    + rewrite I2. lia.
    + rewrite I3. reflexivity.
    + intros a. rewrite I4, mem_erase.
      pose proof block_size_pos.
      ranges; try reflexivity; nia.
Qed.

Lemma format_erase_spec (infos : list Z) :
  forall (d : flash_dev) (k : Z),
    let r := format_erase cfg infos d k in
    fst (fst r) = 0
    /\ block_info (snd (fst r)) = block_info d
    /\ forall a,
         fl_mem (snd (fst r)) a =
         if in_range (k * NAND_BLOCK_SIZE)
              (total_blocks infos * NAND_BLOCK_SIZE) a
         then ERASED else fl_mem d a.
Proof.
  induction infos as [| blocks rest IH]; intros d k; cbv zeta.
  - cbn [format_erase fst snd total_blocks fold_right].
    repeat apply conj; try reflexivity.
    intros a. rewrite in_range_false by lia. reflexivity.
  - cbn [format_erase total_blocks fold_right].
    fold (total_blocks rest).
    pose proof (format_erase_blocks_spec (Z.to_nat blocks) d k) as E.
    cbv zeta in E.
    destruct (format_erase_blocks cfg (Z.to_nat blocks) d k) as [[e d1] k1].
    cbn [fst snd] in E. destruct E as (E1 & E2 & E3 & E4). subst e.
    cbn [Z.eqb negb].
    specialize (IH d1 k1). cbv zeta in IH. destruct IH as (I1 & I2 & I3).
    repeat apply conj.
    + exact I1.
    + rewrite I2. exact E3.
    + intros a. rewrite I3, E4. subst k1.
      pose proof block_size_pos.
      assert (0 <= total_blocks rest).
      { clear. induction rest as [| b t IHt]; simpl; [lia |].
        fold (total_blocks t). lia. }
      ranges; try reflexivity; nia.
Qed.

Lemma decode_encode_name_fit (d : dfs_dir_entry) :
  name (decode_dirent cfg (encode_dirent cfg d)) = fit DFS_NAME_LEN (name d).
Proof.
  unfold decode_dirent, encode_dirent. cbn [name].
  rewrite firstn_app, length_fit, Nat.sub_diag. cbn [firstn].
  rewrite app_nil_r. apply firstn_all2. rewrite length_fit. lia.
Qed.

Lemma fresh_root_name (m : machine) (write_buf : list Z) :
  2 <= DFS_NAME_LEN ->
  cstr (fit DFS_NAME_LEN (name (fresh_root cfg m write_buf))) = [47].
Proof.
  intros Hn. cbn [fresh_root name]. unfold strcpy, fit. cbv zeta.
  cbn [cstr Z.eqb app List.length skipn].
  destruct (Z.to_nat DFS_NAME_LEN) as [| [| k]] eqn:E; try lia.
  reflexivity.
Qed.

Lemma dfs_format_result (m : machine) (write_buf : list Z) :
  0 <= DFS_NAME_LEN ->
  sizeof_sb_info + sizeof_dir_entry cfg
  <= total_blocks (block_info (fdev m)) * NAND_BLOCK_SIZE ->
  let r := dfs_format cfg m write_buf in
  fst r = 0
  /\ forall a,
       0 <= a < sizeof_sb_info + sizeof_dir_entry cfg ->
       fl_mem (fdev (snd r)) a
       = byte_at (encode_sb (fresh_sb cfg m)
                  ++ encode_dirent cfg (fresh_root cfg m write_buf)) a.
Proof.
  intros Hl Hroom. unfold dfs_format.
  pose proof (format_erase_spec (block_info (fdev m)) (fdev m) 0) as E.
  cbv zeta in E.
  destruct (format_erase cfg (block_info (fdev m)) (fdev m) 0)
    as [[e d1] k1].
  cbn [fst snd] in E. destruct E as (E1 & E2 & E3). subst e.
  cbn [Z.eqb negb].
  change (mk_sb_info [DFS_MAGIC_0; DFS_MAGIC_1] _ _ _ _ _)
    with (fresh_sb cfg m).
  change (mk_dir_entry _ (free_space (fresh_sb cfg m)) _ S_IFDIR)
    with (fresh_root cfg m write_buf).
  pose proof (mem_write d1 0
                (encode_sb (fresh_sb cfg m)
                 ++ encode_dirent cfg (fresh_root cfg m write_buf))
                (sizeof_sb_info + sizeof_dir_entry cfg)) as Hw.
  destruct (flash_write_aligned cfg d1 0
              (encode_sb (fresh_sb cfg m)
               ++ encode_dirent cfg (fresh_root cfg m write_buf))
              (sizeof_sb_info + sizeof_dir_entry cfg)) as [e2 d2].
  cbn [snd] in Hw. cbv zeta. cbn [fst snd with_dev fdev].
  split; [reflexivity |].
  intros a Ha. rewrite Hw, E3.
  rewrite !in_range_true by lia.
  rewrite program_erased. f_equal. lia.
Qed.

(** C9: after [dfs_format] on a device whose blocks hold the superblock
    and the root entry, the superblock read from offset 0 has the magic
    0x0D 0xF5, [inode_count = 1] and [free_space = sizeof(sb_info) +
    DFS_INODES_MAX * sizeof(dir_entry)], and slot 0 holds the entry named
    "/" with [pos_start = free_space], [len = DFS_INODES_MAX] and the
    directory flag. *)
Theorem dfs_format_superblock_and_root (m : machine) (write_buf : list Z)
    (sb0 : super_block) :
  let r := dfs_format cfg m write_buf in
  let sb := with_bdev sb0 (snd r) in
  let sbi := sb_data (snd (dfs_read_sb_info sb)) in
  let root := snd (dfs_read_dirent cfg sb 0) in
  2 <= DFS_NAME_LEN ->
  0 <= DFS_INODES_MAX ->
  DFS_DENTRY_OFFSET cfg DFS_INODES_MAX < 2 ^ 32 ->
  sizeof_sb_info + sizeof_dir_entry cfg
  <= total_blocks (block_info (fdev m)) * NAND_BLOCK_SIZE ->
  fst r = 0 ->
  magic sbi = [13; 245]
  /\ inode_count sbi = 1
  /\ free_space sbi
     = sizeof_sb_info + DFS_INODES_MAX * sizeof_dir_entry cfg
  /\ cstr (name root) = [47]
  /\ pos_start root = free_space sbi
  /\ len root = DFS_INODES_MAX
  /\ Z.land (flags root) S_IFDIR = S_IFDIR.
Proof.
  intros r sb sbi root Hn Hmax H32 Hroom _.
  assert (Hl : 0 <= DFS_NAME_LEN) by lia.
  destruct (dfs_format_result m write_buf Hl Hroom) as (_ & Hmem).
  fold r in Hmem.
  assert (Hoff : 0 <= DFS_DENTRY_OFFSET cfg DFS_INODES_MAX).
  { unfold DFS_DENTRY_OFFSET, sizeof_dir_entry, sizeof_sb_info. nia. }
  assert (Hsz : 0 < sizeof_dir_entry cfg) by (unfold sizeof_dir_entry; lia).
  assert (Hsb : sbi = fresh_sb cfg m).
  { unfold sbi, dfs_read_sb_info, flash_read_aligned. cbn [snd sb_data].
    assert (E : map (fl_mem (fdev (bdev sb))) (byte_range 0 sizeof_sb_info)
                = encode_sb (fresh_sb cfg m)).
    { apply (flash_bytes_eq (bdev sb) 0 (encode_sb (fresh_sb cfg m))).
      intros i Hi. rewrite length_encode_sb in Hi.
      unfold sizeof_sb_info in *. cbn [sb with_bdev bdev].
      rewrite Hmem by lia. apply byte_at_app_l.
      rewrite length_encode_sb. unfold sizeof_sb_info. lia. }
    rewrite E. rewrite <- (app_nil_r (encode_sb (fresh_sb cfg m))).
    apply decode_encode_sb.
    unfold sb_representable, fresh_sb, to_uint.
    cbn [magic inode_count max_inode_count max_len buff_bk free_space].
    repeat apply conj; try reflexivity; try lia;
      try (apply Z.mod_pos_bound; lia);
      case USE_RAM_AS_CACHE; apply Z.mod_pos_bound; lia. }
  assert (Hroot : root = decode_dirent cfg
                           (encode_dirent cfg (fresh_root cfg m write_buf))).
  { unfold root. apply dfs_read_dirent_encoded; try lia.
    - unfold DFS_DENTRY_OFFSET, sizeof_sb_info. lia.
    - intros a Ha. unfold DFS_DENTRY_OFFSET, sizeof_sb_info in *.
      cbn [sb with_bdev bdev]. rewrite Hmem by lia.
      rewrite byte_at_app_r by (rewrite length_encode_sb; simpl; lia).
      rewrite length_encode_sb. f_equal; simpl; lia. }
  destruct (decode_encode_fields (fresh_root cfg m write_buf) Hl)
    as (F1 & F2 & F3).
  rewrite Hsb, Hroot. cbn [fresh_sb magic inode_count free_space].
  repeat apply conj.
  - reflexivity.
  - reflexivity.
  - rewrite to_uint_small by lia. reflexivity.
  - rewrite decode_encode_name_fit. apply fresh_root_name. exact Hn.
  - rewrite F1. cbn [fresh_root pos_start fresh_sb free_space].
    unfold to_uint. rewrite Z.mod_mod by lia. reflexivity.
  - rewrite F2. cbn [fresh_root len]. unfold to_uint.
    rewrite Z.mod_mod by lia. apply Z.mod_small.
    unfold DFS_DENTRY_OFFSET, sizeof_dir_entry, sizeof_sb_info in H32. nia.
  - rewrite F3. reflexivity.
Qed.

(** *** Reading and writing a file *)

(** C6 (amended): [dfs_read] clips to [min(size, length - pos)] and fails
    exactly when that is negative; [dfs_write] clips to
    [min(size, max_len - pos)] and fails exactly when that is not
    positive; a call that does not fail returns the clipped length. *)
Theorem dfs_read_write_clip (sb : super_block) (desc : file_desc)
    (buf : list Z) (size : Z) :
  let lr := Z.min size (file_get_size desc - pos desc) in
  let lw := Z.min size (max_len (sb_data sb) - pos desc) in
  0 <= size < 2 ^ 31 ->
  - 2 ^ 31 <= file_get_size desc - pos desc ->
  - 2 ^ 31 <= max_len (sb_data sb) - pos desc ->
  (fst (dfs_read sb desc size) < 0 <-> lr < 0)
  /\ (0 <= lr -> fst (dfs_read sb desc size) = lr)
  /\ (fst (dfs_write cfg sb desc buf size) < 0 <-> lw <= 0)
  /\ (0 < lw -> fst (dfs_write cfg sb desc buf size) = lw).
Proof.
  intros lr lw Hsize Hr Hw.
  unfold dfs_read, dfs_write. fold lr lw.
  rewrite (to_int_small lr), (to_int_small lw) by lia.
  destruct (Z.ltb_spec lr 0) as [H1 | H1];
    destruct (Z.leb_spec lw 0) as [H2 | H2];
    repeat match goal with
    | |- context [let '(_, _) := ?x in _] => destruct x
    end; cbn [fst]; lia.
Qed.

(** *** The operations of one call *)

Lemma new_ops_app (ops before : list flash_op) :
  new_ops before (ops ++ before) = ops.
Proof.
  unfold new_ops. rewrite length_app.
  replace (List.length ops + List.length before - List.length before)%nat
    with (List.length ops) by lia.
  rewrite firstn_app, Nat.sub_diag, firstn_all. cbn [firstn].
  apply app_nil_r.
Qed.

Section BufferedWriteClaims.

Variable m : machine.
Variable pos : Z.
Variable buff : list Z.
Variable size : Z.
Variable scratch : Z.

Let r := dfs_write_buffered cfg m pos buff size scratch.
Let ops := new_ops (fl_log (fdev m)) (fl_log (fdev (snd r))).

Hypothesis pos_nonneg : 0 <= pos.
Hypothesis size_nonneg : 0 <= size.
Hypothesis end_fits : pos + size < 2 ^ 31.
Hypothesis scratch_apart :
  scratch < pos / NAND_BLOCK_SIZE \/ (pos + size) / NAND_BLOCK_SIZE < scratch.

Lemma buffered_write_new_ops : ops = buffered_write_ops cfg pos size scratch.
Proof.
  destruct (dfs_write_buffered_flash m pos buff size scratch)
    as (_ & _ & _ & Hlog & _); try assumption.
  unfold ops, r. rewrite Hlog. apply new_ops_app.
Qed.



End BufferedWriteClaims.


(** *** A range that ends where the scratch block begins *)

Section BufferedWriteAtScratch.

Variable m : machine.
Variable pos : Z.
Variable buff : list Z.
Variable size : Z.

Hypothesis pos_nonneg : 0 <= pos.
Hypothesis size_pos : 0 < size.
Hypothesis end_fits : pos + size < 2 ^ 31.
Hypothesis end_aligned : (pos + size) mod NAND_BLOCK_SIZE = 0.

Let scratch := (pos + size) / NAND_BLOCK_SIZE.
Let r := dfs_write_buffered cfg m pos buff size scratch.

(** X3: a write whose range ends exactly at the start of the scratch
    block still stores the buffer and keeps every other byte outside the
    scratch block; the scratch block ends erased. *)
Theorem dfs_write_buffered_up_to_scratch :
  fst r = 0
  /\ forall a,
       fl_mem (fdev (snd r)) a =
       if in_range pos size a then byte_at buff (a - pos)
       else if in_range (scratch * NAND_BLOCK_SIZE) NAND_BLOCK_SIZE a
       then ERASED
       else fl_mem (fdev m) a.
Proof.
  pose proof block_size_pos as HB.
  unfold r, scratch, dfs_write_buffered, restore_last, dfs_cache_erase,
    dfs_cache, dfs_cache_write, dfs_cache_restore, CACHE_OFFSET.
  rewrite flash_scratch. unfold on_dev. cbn [fst snd].
  rewrite Z.quot_div_nonneg, Z.rem_mod_nonneg by lia.
  pose proof (Z.div_mod pos NAND_BLOCK_SIZE ltac:(lia)) as Hpos.
  pose proof (Z.mod_pos_bound pos NAND_BLOCK_SIZE HB) as Hoff.
  pose proof (Z.div_mod (pos + size) NAND_BLOCK_SIZE ltac:(lia)) as Hend.
  rewrite end_aligned in Hend.
  assert (Hs : 0 <= pos / NAND_BLOCK_SIZE) by (apply Z.div_pos; lia).
  assert (Hsl : pos / NAND_BLOCK_SIZE <= (pos + size) / NAND_BLOCK_SIZE)
    by (apply Z.div_le_mono; lia).
  assert (Hl : (pos + size) / NAND_BLOCK_SIZE <= pos + size)
    by (apply Z.div_le_upper_bound; nia).
  rewrite (to_uint_small (pos + size)) by lia.
  rewrite (to_int_small ((pos + size) / NAND_BLOCK_SIZE)) by lia.
  set (s := pos / NAND_BLOCK_SIZE) in *.
  set (l := (pos + size) / NAND_BLOCK_SIZE) in *.
  set (off := pos mod NAND_BLOCK_SIZE) in *.
  assert (E : s <> l) by nia.
  assert (HslB : s * NAND_BLOCK_SIZE + NAND_BLOCK_SIZE <= l * NAND_BLOCK_SIZE)
    by nia.
  replace (s =? l) with false by (symmetry; apply Z.eqb_neq; exact E).
  cbn [fst snd fdev with_dev ram].
  assert (Hmod : (off + size) mod NAND_BLOCK_SIZE = 0).
  { rewrite <- end_aligned.
    replace (pos + size) with (off + size + s * NAND_BLOCK_SIZE) by lia.
    rewrite Z_mod_plus_full. reflexivity. }
  rewrite (to_uint_small (off + size)) by lia.
  rewrite Hmod, (to_int_small 0) by lia.
  match goal with
  | |- context [write_whole_blocks cfg ?n ?m4 ?bk ?buf] =>
      pose proof (write_whole_blocks_spec n m4 bk buf) as W;
      destruct (write_whole_blocks cfg n m4 bk buf) as [[err m5] buff2]
  end.
  cbv zeta in W. cbn [fst snd fdev with_dev ram] in W.
  rewrite Z2Nat.id in W by lia.
  destruct W as (W1 & W2 & W3 & W4 & W5 & W6). subst err buff2.
  cbn [Z.eqb negb fst snd fdev with_dev ram].
  split; [reflexivity |].
  intros a.
  destruct (in_range_cases pos size a) as [[Ha Ea] | [Ha Ea]]; rewrite Ea;
    [| destruct (in_range_cases (l * NAND_BLOCK_SIZE) NAND_BLOCK_SIZE a)
         as [[Hk Ek] | [Hk Ek]]; rewrite Ek ];
    mem_unfold; rewrite ?W6; mem_unfold; ranges;
    rewrite ?byte_at_advance by lia; mem_done.
Qed.

End BufferedWriteAtScratch.

(** *** Round trips of the metadata *)



(** *** Lookup *)


(** *** Creating: refusals and the superblock *)

(** X7: a call of [dfs_icreate] that does not return 0 leaves the device
    and the inode it was given as they were. *)
Theorem dfs_icreate_refused (sb : super_block) (i_new : option inode)
    (nm : list Z) :
  let r := dfs_icreate cfg sb i_new nm in
  fst (fst r) <> 0 ->
  bdev (snd (fst r)) = bdev sb
  /\ snd r = i_new
  /\ (fst (fst r) = -1 \/ fst (fst r) = - ENOMEM).
Proof.
  cbv zeta. unfold dfs_icreate.
  destruct i_new as [ino |].
  - change (dfs_read_sb_info sb) with (0, snd (dfs_read_sb_info sb)).
    cbv beta iota.
    destruct (max_inode_count (sb_data (snd (dfs_read_sb_info sb)))
              <? inode_count (sb_data (snd (dfs_read_sb_info sb)))).
    + intros _. cbn [fst snd]. repeat apply conj; try reflexivity.
      right. reflexivity.
    + destruct (dfs_write_dirent cfg _ _ _) as [e2 sb2].
      destruct (dfs_write_sb_info cfg _ _) as [e4 sb4].
      cbn [fst snd]. intros H. contradiction H. reflexivity.
  - intros _. cbn [fst snd]. repeat apply conj; try reflexivity.
    left. reflexivity.
Qed.

Lemma next_sb_representable (sbi : dfs_sb_info) :
  sb_representable sbi -> sb_representable (next_sb cfg sbi).
Proof.
  intros (Hm & H1 & H2 & H3 & H4 & H5).
  unfold sb_representable, next_sb, to_uint.
  cbn [magic inode_count max_inode_count max_len buff_bk free_space].
  repeat apply conj; try assumption; try lia; apply Z.mod_pos_bound; lia.
Qed.

Section CreateSuperblock.

Variable sb : super_block.
Variable ino : inode.
Variable nm : list Z.

Let sbi := sb_on_flash sb.
Let n := inode_count sbi.
Let r := dfs_icreate cfg sb (Some ino) nm.

Hypothesis name_len_nonneg : 0 <= DFS_NAME_LEN.
Hypothesis name_fits : Z.of_nat (List.length (cstr nm)) < DFS_NAME_LEN.
Hypothesis on_flash_representable : sb_representable sbi.
Hypothesis room : n <= max_inode_count sbi.
Hypothesis below_scratch :
  DFS_DENTRY_OFFSET cfg (n + 1) < buff_bk sbi * NAND_BLOCK_SIZE.
Hypothesis small : DFS_DENTRY_OFFSET cfg (n + 1) < 2 ^ 31.

Lemma dfs_icreate_sb_on_flash :
  sb_on_flash (snd (fst r)) = next_sb cfg sbi.
Proof.
  assert (Hn : 0 <= n) by (destruct on_flash_representable; unfold n; lia).
  destruct (dfs_icreate_flash sb ino nm name_len_nonneg Hn room
              below_scratch small) as (_ & _ & _ & Hmem).
  fold r in Hmem.
  destruct (dentry_offset_bounds n Hn name_len_nonneg) as (Hlo & Hnext & Hsz).
  unfold sizeof_sb_info in Hlo.
  unfold sb_on_flash, dfs_read_sb_info, flash_read_aligned.
  cbn [snd sb_data].
  assert (E : map (fl_mem (fdev (bdev (snd (fst r)))))
                (byte_range 0 sizeof_sb_info)
              = encode_sb (next_sb cfg sbi)).
  { apply (flash_bytes_eq (bdev (snd (fst r))) 0
             (encode_sb (next_sb cfg sbi))).
    intros i Hi. rewrite length_encode_sb in Hi.
    unfold sizeof_sb_info in *. unfold n, sbi in *.
    rewrite Hmem by lia. rewrite in_range_true by lia. f_equal. }
  rewrite E. rewrite <- (app_nil_r (encode_sb (next_sb cfg sbi))).
  apply decode_encode_sb. apply next_sb_representable.
  exact on_flash_representable.
Qed.

Lemma dfs_icreate_superblock_fields :
  inode_count sbi + 1 < 2 ^ 32 ->
  0 <= MIN_FILE_SZ -> free_space sbi + MIN_FILE_SZ < 2 ^ 32 ->
  let sbi' := sb_on_flash (snd (fst r)) in
  fst (fst r) = 0
  /\ snd r = Some {| i_no := n; i_data := free_space sbi;
                     length := 0; i_mode := 0 |}
  /\ inode_count sbi' = inode_count sbi + 1
  /\ free_space sbi' = free_space sbi + MIN_FILE_SZ
  /\ max_inode_count sbi' = max_inode_count sbi
  /\ max_len sbi' = max_len sbi
  /\ buff_bk sbi' = buff_bk sbi
  /\ magic sbi' = magic sbi.
Proof.
  intros Hc Hmin Hfs. cbv zeta. rewrite dfs_icreate_sb_on_flash.
  assert (Hn : 0 <= n) by (destruct on_flash_representable; unfold n; lia).
  destruct (dfs_icreate_flash sb ino nm name_len_nonneg Hn room
              below_scratch small) as (R1 & R2 & _ & _).
  fold r in R1, R2.
  destruct on_flash_representable as (Hm & H1 & H2 & H3 & H4 & H5).
  destruct (icreate_dirent_fields sbi ino nm name_fits H5) as (F1 & _).
  fold sbi in R2. rewrite F1 in R2.
  cbn [next_sb inode_count free_space max_inode_count max_len buff_bk magic].
  rewrite !to_uint_small by lia.
  repeat apply conj; try reflexivity; assumption.
Qed.

End CreateSuperblock.



(** *** Truncation touches one field *)


(** *** File data *)

Section WriteFile.

Variable sb : super_block.
Variable desc : file_desc.
Variable buf : list Z.
Variable size : Z.

Let p := i_data (f_inode desc) + pos desc.
Let l := Z.min size (max_len (sb_data sb) - pos desc).
Let w := dfs_write cfg sb desc buf size.

Hypothesis start_nonneg : 0 <= p.
Hypothesis clipped_pos : 0 < l.
Hypothesis end_fits : p + l < 2 ^ 31.
Hypothesis scratch_apart :
  buff_bk (sb_data sb) < p / NAND_BLOCK_SIZE
  \/ (p + l) / NAND_BLOCK_SIZE < buff_bk (sb_data sb).

Lemma dfs_write_flash :
  fst w = l
  /\ sb_data (snd w) = sb_data sb
  /\ (forall a, p <= a < p + l ->
        fl_mem (fdev (bdev (snd w))) a = byte_at buf (a - p))
  /\ (forall a, a < p \/ p + l <= a ->
        a < buff_bk (sb_data sb) * NAND_BLOCK_SIZE
        \/ buff_bk (sb_data sb) * NAND_BLOCK_SIZE + NAND_BLOCK_SIZE <= a ->
        fl_mem (fdev (bdev (snd w))) a = fl_mem (fdev (bdev sb)) a).
Proof.
  unfold w, dfs_write. fold p l.
  rewrite (to_uint_small p), (to_int_small p), (to_int_small l) by lia.
  replace (l <=? 0) with false by (symmetry; apply Z.leb_gt; lia).
  pose proof (buffered_write_inside (bdev sb) p buf l (buff_bk (sb_data sb))
                start_nonneg ltac:(lia) end_fits scratch_apart) as Hin.
  pose proof (buffered_write_outside (bdev sb) p buf l (buff_bk (sb_data sb))
                start_nonneg ltac:(lia) end_fits scratch_apart) as Hout.
  destruct (dfs_write_buffered cfg (bdev sb) p buf l (buff_bk (sb_data sb)))
    as [e m'].
  cbn [fst snd with_bdev sb_data bdev] in *.
  repeat apply conj; try reflexivity; assumption.
Qed.



End WriteFile.

(** *** What formatting leaves on the device *)

Lemma dfs_format_mem (m : machine) (write_buf : list Z) (a : Z) :
  fl_mem (fdev (snd (dfs_format cfg m write_buf))) a =
  let erased :=
    if in_range 0 (total_blocks (block_info (fdev m)) * NAND_BLOCK_SIZE) a
    then ERASED else fl_mem (fdev m) a in
  if in_range 0 (sizeof_sb_info + sizeof_dir_entry cfg) a
  then program erased
         (byte_at (encode_sb (fresh_sb cfg m)
                   ++ encode_dirent cfg (fresh_root cfg m write_buf)) a)
  else erased.
Proof.
  unfold dfs_format.
  pose proof (format_erase_spec (block_info (fdev m)) (fdev m) 0) as E.
  cbv zeta in E.
  destruct (format_erase cfg (block_info (fdev m)) (fdev m) 0)
    as [[e d1] k1].
  cbn [fst snd] in E. destruct E as (E1 & E2 & E3). subst e.
  cbn [Z.eqb negb].
  change (mk_sb_info [DFS_MAGIC_0; DFS_MAGIC_1] _ _ _ _ _)
    with (fresh_sb cfg m).
  change (mk_dir_entry _ (free_space (fresh_sb cfg m)) _ S_IFDIR)
    with (fresh_root cfg m write_buf).
  pose proof (mem_write d1 0
                (encode_sb (fresh_sb cfg m)
                 ++ encode_dirent cfg (fresh_root cfg m write_buf))
                (sizeof_sb_info + sizeof_dir_entry cfg)) as Hw.
  destruct (flash_write_aligned cfg d1 0
              (encode_sb (fresh_sb cfg m)
               ++ encode_dirent cfg (fresh_root cfg m write_buf))
              (sizeof_sb_info + sizeof_dir_entry cfg)) as [e2 d2].
  cbn [snd] in Hw. cbv zeta. cbn [fst snd with_dev fdev].
  rewrite Hw, E3. replace (a - 0) with a by lia.
  replace (0 * NAND_BLOCK_SIZE) with 0 by lia. reflexivity.
Qed.

(** X13: [dfs_format] leaves every byte of the device's blocks behind the
    superblock and the root entry erased, and no byte outside the blocks
    changed. *)
Theorem dfs_format_erases_device (m : machine) (write_buf : list Z) (a : Z) :
  sizeof_sb_info + sizeof_dir_entry cfg <= a ->
  fl_mem (fdev (snd (dfs_format cfg m write_buf))) a
  = if in_range 0 (total_blocks (block_info (fdev m)) * NAND_BLOCK_SIZE) a
    then ERASED else fl_mem (fdev m) a.
Proof.
  intros Ha. rewrite dfs_format_mem. cbv zeta.
  rewrite (in_range_false 0 (sizeof_sb_info + sizeof_dir_entry cfg)) by lia.
  reflexivity.
Qed.

Lemma forallb_firstn_all (f : Z -> bool) (n : nat) (l : list Z) :
  Forall (fun x => f x = true) l -> forallb f (firstn n l) = true.
Proof.
  intros H. apply forallb_forall. intros x Hx.
  rewrite Forall_forall in H. apply H.
  rewrite <- (firstn_skipn n l). apply in_or_app. left. exact Hx.
Qed.

(** A slot whose bytes are all erased is taken as erased. *)
Lemma slot_erased_of_erased_bytes (sb : super_block) (j : Z) :
  0 <= DFS_NAME_LEN -> 0 <= j -> DFS_DENTRY_OFFSET cfg j < 2 ^ 32 ->
  (forall a, DFS_DENTRY_OFFSET cfg j <= a
             < DFS_DENTRY_OFFSET cfg j + sizeof_dir_entry cfg ->
             fl_mem (fdev (bdev sb)) a = ERASED) ->
  slot_erased cfg sb j = true.
Proof.
  intros Hl Hj H32 Hmem.
  destruct (dentry_offset_bounds j Hj Hl) as (Hlo & Hnext & Hsz).
  unfold sizeof_sb_info in Hlo.
  unfold slot_erased. rewrite dfs_read_dirent_bytes. cbv zeta.
  rewrite to_uint_small by lia.
  set (bytes := flash_bytes (bdev sb) (DFS_DENTRY_OFFSET cfg j)
                  (sizeof_dir_entry cfg)).
  assert (Hlen : List.length bytes = Z.to_nat (sizeof_dir_entry cfg)).
  { unfold bytes, flash_bytes. rewrite length_map, length_byte_range.
    reflexivity. }
  assert (Hall : forall i, 0 <= i < sizeof_dir_entry cfg ->
                           byte_at bytes i = ERASED).
  { intros i Hi. unfold bytes, flash_bytes.
    rewrite byte_at_map_range by lia. apply Hmem. lia. }
  assert (Hd : dirent_erased cfg (decode_dirent cfg bytes) = true).
  { unfold dirent_erased. apply forallb_firstn_all.
    unfold encode_dirent, decode_dirent.
    cbn [name pos_start len flags].
    unfold sizeof_dir_entry in *.
    assert (Hfield : forall off, 0 <= off -> off + 4 <= DFS_NAME_LEN + 12 ->
              le32 (le32_at bytes off) = [255; 255; 255; 255]).
    { intros off H0 H1. unfold le32_at.
      rewrite !Hall by lia. reflexivity. }
    rewrite !Hfield by lia.
    rewrite fit_exact by (rewrite length_firstn; lia).
    apply Forall_app. split.
    - apply Forall_forall. intros x Hx.
      apply (In_nth _ _ 0) in Hx. destruct Hx as (k & Hk & Hx).
      rewrite length_firstn in Hk.
      rewrite nth_firstn in Hx.
      replace (k <? Z.to_nat DFS_NAME_LEN)%nat with true in Hx
        by (symmetry; apply Nat.ltb_lt; lia).
      specialize (Hall (Z.of_nat k) ltac:(lia)).
      unfold byte_at in Hall. rewrite Nat2Z.id in Hall.
      rewrite <- Hx, Hall. reflexivity.
    - repeat constructor. }
  destruct (byte_at (name (decode_dirent cfg bytes)) 0 =? 0);
    cbn [snd]; exact Hd.
Qed.

Lemma present_entries_none (sb : super_block) (k : nat) :
  forall i,
    (forall j, i <= j < i + Z.of_nat k -> slot_erased cfg sb j = true) ->
    present_entries cfg k sb i = [].
Proof.
  induction k as [| k IH]; intros i H.
  - reflexivity.
  - cbn [present_entries].
    pose proof (H i ltac:(lia)) as Hi. unfold slot_erased in Hi.
    rewrite Hi. cbn [app]. apply IH. intros j Hj. apply H. lia.
Qed.

(** X14: on a freshly formatted device whose blocks hold the table of
    entries, reading the root directory to its end yields no entry. *)
Theorem fresh_directory_is_empty (m : machine) (write_buf : list Z)
    (sb0 : super_block) (root : inode) (fuel : nat) :
  let sb := with_bdev sb0 (snd (dfs_format cfg m write_buf)) in
  0 <= DFS_NAME_LEN ->
  DFS_DENTRY_OFFSET cfg (length root)
  <= total_blocks (block_info (fdev m)) * NAND_BLOCK_SIZE ->
  DFS_DENTRY_OFFSET cfg (length root) < 2 ^ 32 ->
  (Z.to_nat (length root) < fuel)%nat ->
  enumerate cfg fuel sb root 0 = Some [].
Proof.
  intros sb Hl Hroom H32 Hfuel.
  rewrite enumerate_root by lia. f_equal.
  apply present_entries_none. intros j Hj.
  destruct (dentry_offset_bounds j ltac:(lia) Hl) as (Hlo & Hnext & Hsz).
  destruct (dentry_offset_bounds (j - 1) ltac:(lia) Hl) as (Hlo' & Hnext' & _).
  replace (j - 1 + 1) with j in Hnext' by lia.
  pose proof (dentry_offset_mono (j + 1) (length root) Hl ltac:(lia)).
  apply slot_erased_of_erased_bytes; try lia.
  intros a Ha. cbn [sb with_bdev bdev].
  rewrite dfs_format_mem. cbv zeta.
  rewrite (in_range_false 0 (sizeof_sb_info + sizeof_dir_entry cfg)) by lia.
  rewrite in_range_true by (unfold sizeof_sb_info in *; lia).
  reflexivity.
Qed.

(** *** Mounting *)

Section Mount.

Variable m : machine.
Variable write_buf : list Z.

Let m1 := snd (dfs_format cfg m write_buf).

Hypothesis name_len_ok : 2 <= DFS_NAME_LEN.
Hypothesis inodes_max_nonneg : 0 <= DFS_INODES_MAX.
Hypothesis table_fits : DFS_DENTRY_OFFSET cfg DFS_INODES_MAX < 2 ^ 32.
Hypothesis room :
  sizeof_sb_info + sizeof_dir_entry cfg
  <= total_blocks (block_info (fdev m)) * NAND_BLOCK_SIZE.

Lemma fresh_sb_representable : sb_representable (fresh_sb cfg m).
Proof.
  unfold sb_representable, fresh_sb, to_uint.
  cbn [magic inode_count max_inode_count max_len buff_bk free_space].
  repeat apply conj; try reflexivity; try lia;
    try (apply Z.mod_pos_bound; lia);
    case USE_RAM_AS_CACHE; apply Z.mod_pos_bound; lia.
Qed.

Lemma dfs_format_sb_on_flash (sb0 : super_block) :
  sb_on_flash (with_bdev sb0 m1) = fresh_sb cfg m.
Proof.
  assert (Hl : 0 <= DFS_NAME_LEN) by lia.
  destruct (dfs_format_result m write_buf Hl room) as (_ & Hmem).
  fold m1 in Hmem.
  assert (Hsz : 0 < sizeof_dir_entry cfg) by (unfold sizeof_dir_entry; lia).
  unfold sb_on_flash, dfs_read_sb_info, flash_read_aligned.
  cbn [snd sb_data with_bdev bdev].
  assert (E : map (fl_mem (fdev m1)) (byte_range 0 sizeof_sb_info)
              = encode_sb (fresh_sb cfg m)).
  { apply (flash_bytes_eq m1 0 (encode_sb (fresh_sb cfg m))).
    intros i Hi. rewrite length_encode_sb in Hi.
    unfold sizeof_sb_info in *.
    rewrite Hmem by lia. apply byte_at_app_l.
    rewrite length_encode_sb. unfold sizeof_sb_info. lia. }
  rewrite E. rewrite <- (app_nil_r (encode_sb (fresh_sb cfg m))).
  apply decode_encode_sb. apply fresh_sb_representable.
Qed.

Lemma dfs_format_root_on_flash (sb0 : super_block) :
  let root := snd (dfs_read_dirent cfg (with_bdev sb0 m1) 0) in
  pos_start root = DFS_DENTRY_OFFSET cfg DFS_INODES_MAX
  /\ len root = DFS_INODES_MAX
  /\ flags root = S_IFDIR
  /\ cstr (name root) = [47].
Proof.
  assert (Hl : 0 <= DFS_NAME_LEN) by lia.
  destruct (dfs_format_result m write_buf Hl room) as (_ & Hmem).
  fold m1 in Hmem.
  assert (Hoff : 0 <= DFS_DENTRY_OFFSET cfg DFS_INODES_MAX).
  { unfold DFS_DENTRY_OFFSET, sizeof_dir_entry, sizeof_sb_info. nia. }
  assert (Hsz : 0 < sizeof_dir_entry cfg) by (unfold sizeof_dir_entry; lia).
  cbv zeta.
  assert (Hroot : snd (dfs_read_dirent cfg (with_bdev sb0 m1) 0)
                  = decode_dirent cfg
                      (encode_dirent cfg (fresh_root cfg m write_buf))).
  { apply dfs_read_dirent_encoded; try lia.
    - unfold DFS_DENTRY_OFFSET, sizeof_sb_info. lia.
    - intros a Ha. unfold DFS_DENTRY_OFFSET, sizeof_sb_info in *.
      cbn [with_bdev bdev]. rewrite Hmem by lia.
      rewrite byte_at_app_r by (rewrite length_encode_sb; simpl; lia).
      rewrite length_encode_sb. f_equal; simpl; lia. }
  destruct (decode_encode_fields (fresh_root cfg m write_buf) Hl)
    as (F1 & F2 & F3).
  rewrite Hroot. repeat apply conj.
  - rewrite F1. cbn [fresh_root pos_start fresh_sb free_space].
    unfold to_uint. rewrite Z.mod_mod by lia. apply Z.mod_small. lia.
  - rewrite F2. cbn [fresh_root len]. unfold to_uint.
    rewrite Z.mod_mod by lia. apply Z.mod_small.
    unfold DFS_DENTRY_OFFSET, sizeof_dir_entry, sizeof_sb_info in table_fits.
    nia.
  - rewrite F3. reflexivity.
  - rewrite decode_encode_name_fit. apply fresh_root_name. exact name_len_ok.
Qed.

(** X15: mounting a device that [dfs_format] has just formatted does not
    format it again: the device is left as it is, the cached superblock
    is the one the formatting wrote, and the root inode has number 0,
    the length [DFS_INODES_MAX] and the first free byte as its data. *)
Theorem dfs_fill_sb_after_format (sb_root : inode) (write_buf2 : list Z) :
  dfs_fill_sb cfg m1 sb_root write_buf2
  = (0,
     {| sb_data := fresh_sb cfg m; bdev := m1 |},
     {| i_no := 0; i_data := DFS_DENTRY_OFFSET cfg DFS_INODES_MAX;
        length := DFS_INODES_MAX; i_mode := i_mode sb_root |}).
Proof.
  unfold dfs_fill_sb.
  set (sb0 := {| sb_data := decode_sb []; bdev := m1 |}).
  pose proof (dfs_format_sb_on_flash sb0) as Hsb.
  unfold sb_on_flash in Hsb. change (with_bdev sb0 m1) with sb0 in Hsb.
  change (dfs_read_sb_info sb0) with (0, snd (dfs_read_sb_info sb0)).
  cbv beta iota.
  assert (Hsb1 : snd (dfs_read_sb_info sb0)
                 = {| sb_data := fresh_sb cfg m; bdev := m1 |}).
  { unfold dfs_read_sb_info, flash_read_aligned in *.
    cbn [snd sb_data bdev sb0] in *. rewrite Hsb. reflexivity. }
  rewrite Hsb1. cbn [sb_data fresh_sb magic].
  change (byte_at [DFS_MAGIC_0; DFS_MAGIC_1] 0 =? DFS_MAGIC_0) with true.
  change (byte_at [DFS_MAGIC_0; DFS_MAGIC_1] 1 =? DFS_MAGIC_1) with true.
  cbn [andb].
  pose proof (dfs_format_root_on_flash
                {| sb_data := fresh_sb cfg m; bdev := m1 |}) as Hroot.
  cbv zeta in Hroot.
  change (with_bdev {| sb_data := fresh_sb cfg m; bdev := m1 |} m1)
    with {| sb_data := fresh_sb cfg m; bdev := m1 |} in Hroot.
  change (mk_sb_info [DFS_MAGIC_0; DFS_MAGIC_1] 1 _ _ _ _)
    with (fresh_sb cfg m).
  destruct (dfs_read_dirent cfg {| sb_data := fresh_sb cfg m; bdev := m1 |} 0)
    as [e dtr].
  cbn [snd] in Hroot. destruct Hroot as (R1 & R2 & _ & _).
  rewrite R1, R2. reflexivity.
Qed.

End Mount.

(** X16: mounting a device whose first two bytes are not the magic
    formats it and then gives what mounting the formatted device gives. *)
Theorem dfs_fill_sb_blank_device (m : machine) (sb_root : inode)
    (write_buf : list Z) :
  let m1 := snd (dfs_format cfg m write_buf) in
  2 <= DFS_NAME_LEN -> 0 <= DFS_INODES_MAX ->
  DFS_DENTRY_OFFSET cfg DFS_INODES_MAX < 2 ^ 32 ->
  sizeof_sb_info + sizeof_dir_entry cfg
  <= total_blocks (block_info (fdev m)) * NAND_BLOCK_SIZE ->
  fl_mem (fdev m) 0 <> DFS_MAGIC_0 \/ fl_mem (fdev m) 1 <> DFS_MAGIC_1 ->
  dfs_fill_sb cfg m sb_root write_buf
  = (0,
     {| sb_data := fresh_sb cfg m; bdev := m1 |},
     {| i_no := 0; i_data := DFS_DENTRY_OFFSET cfg DFS_INODES_MAX;
        length := DFS_INODES_MAX; i_mode := i_mode sb_root |}).
Proof.
  intros m1 Hn Hmax H32 Hroom Hmagic.
  unfold dfs_fill_sb.
  set (sb0 := {| sb_data := decode_sb []; bdev := m |}).
  change (dfs_read_sb_info sb0) with (0, snd (dfs_read_sb_info sb0)).
  cbv beta iota.
  assert (Hcheck :
    (byte_at (magic (sb_data (snd (dfs_read_sb_info sb0)))) 0 =? DFS_MAGIC_0)
    && (byte_at (magic (sb_data (snd (dfs_read_sb_info sb0)))) 1
        =? DFS_MAGIC_1) = false).
  { unfold dfs_read_sb_info, flash_read_aligned.
    cbn [snd sb_data decode_sb magic sb0 bdev].
    change (byte_at [?a; ?b] 0) with a. change (byte_at [?a; ?b] 1) with b.
    rewrite !byte_at_map_range by (unfold sizeof_sb_info; lia).
    cbn [Z.add]. apply andb_false_iff.
    destruct Hmagic as [H | H]; [left | right]; apply Z.eqb_neq; exact H. }
  rewrite Hcheck.
  change (bdev (snd (dfs_read_sb_info sb0))) with m.
  rewrite (surjective_pairing (dfs_format cfg m write_buf)).
  fold m1. cbv iota. cbn [snd sb_data bdev with_bdev].
  pose proof (dfs_format_sb_on_flash m write_buf Hn Hroom
                (snd (dfs_read_sb_info sb0))) as Hsb.
  fold m1 in Hsb. unfold sb_on_flash in Hsb.
  change (with_bdev (snd (dfs_read_sb_info sb0)) m1)
    with {| sb_data := sb_data (snd (dfs_read_sb_info sb0)); bdev := m1 |}
    in Hsb.
  set (sbf := {| sb_data := sb_data (snd (dfs_read_sb_info sb0));
                 bdev := m1 |}) in *.
  assert (Hsb1 : snd (dfs_read_sb_info sbf)
                 = {| sb_data := fresh_sb cfg m; bdev := m1 |}).
  { unfold dfs_read_sb_info, flash_read_aligned in *.
    cbn [snd sb_data bdev sbf] in *. rewrite Hsb. reflexivity. }
  change (with_bdev (snd (dfs_read_sb_info sb0)) m1) with sbf.
  rewrite Hsb1.
  pose proof (dfs_format_root_on_flash m write_buf Hn Hmax H32 Hroom
                {| sb_data := fresh_sb cfg m; bdev := m1 |}) as Hroot.
  cbv zeta in Hroot. fold m1 in Hroot.
  change (with_bdev {| sb_data := fresh_sb cfg m; bdev := m1 |} m1)
    with {| sb_data := fresh_sb cfg m; bdev := m1 |} in Hroot.
  destruct (dfs_read_dirent cfg {| sb_data := fresh_sb cfg m; bdev := m1 |} 0)
    as [e dtr].
  cbn [snd] in Hroot. destruct Hroot as (R1 & R2 & _ & _).
  rewrite R1, R2. reflexivity.
Qed.

(** *** One call of dfs_iterate *)

Lemma dfs_iterate_scan_erased (fuel : nat) (sb : super_block) :
  forall i,
    match dfs_iterate_scan cfg fuel sb i with
    | None =>
        forall k, i <= k < i + Z.of_nat fuel -> slot_erased cfg sb k = true
    | Some (j, dirent) =>
        i <= j < i + Z.of_nat fuel
        /\ dirent = snd (dfs_read_dirent cfg sb j)
        /\ slot_erased cfg sb j = false
        /\ forall k, i <= k < j -> slot_erased cfg sb k = true
    end.
Proof.
  induction fuel as [| fuel IH]; intros i.
  - cbn [dfs_iterate_scan]. intros k Hk. lia.
  - rewrite dfs_iterate_scan_step.
    destruct (dirent_erased cfg (snd (dfs_read_dirent cfg sb i))) eqn:E;
      cbn [negb].
    + specialize (IH (i + 1)).
      destruct (dfs_iterate_scan cfg fuel sb (i + 1)) as [[j dirent] |].
      * destruct IH as (H1 & H2 & H3 & H4).
        repeat apply conj; try assumption; try lia.
        intros k Hk. destruct (Z.eq_dec k i) as [-> | Hne];
          [exact E | apply H4; lia].
      * intros k Hk. destruct (Z.eq_dec k i) as [-> | Hne];
          [exact E | apply IH; lia].
    + repeat apply conj; try reflexivity; try lia; exact E.
Qed.


(** *** dfs_pathname *)

Lemma cstr_strcpy (dst src : list Z) : cstr (strcpy dst src) = cstr src.
Proof.
  unfold strcpy. cbv zeta. rewrite <- app_assoc. cbn [app].
  apply cstr_app_nul. apply c_string_cstr.
Qed.


End Properties.








(** ** The RAM buffer as scratch *)

Section RamScratch.

Variable cfg : platform.

Local Abbreviation NAND_PAGE_SIZE := (page_size cfg).
Local Abbreviation NAND_BLOCK_SIZE := (block_size cfg).
Local Abbreviation USE_RAM_AS_CACHE := (use_ram_as_cache cfg).
Local Abbreviation program := (cell_program cfg).

Hypothesis program_erased : forall v, program ERASED v = v.
Hypothesis block_size_pos : 0 < NAND_BLOCK_SIZE.
Hypothesis page_size_pos : 0 < NAND_PAGE_SIZE.
Hypothesis ram_scratch : USE_RAM_AS_CACHE = true.

(** Decides the range tests of the goal, as in the flash-scratch proofs. *)
Ltac ranges :=
  repeat match goal with
  | |- context [in_range ?lo ?len ?a] =>
      first [ rewrite (in_range_true lo len a) by lia
            | rewrite (in_range_false lo len a) by lia ]
  | |- context [in_range ?lo ?len ?a] =>
      let H := fresh "Hr" in
      let E := fresh "Er" in
      destruct (in_range_cases lo len a) as [[H E] | [H E]]; rewrite E
  end.

(** The page-wise copy into RAM copies the whole range and leaves the
    device alone. *)
Lemma dfs_cache_ram_spec (fuel : nat) :
  forall (m : machine) (to from len : Z),
    (Z.to_nat len <= fuel)%nat ->
    let r := dfs_cache_ram cfg fuel m to from len in
    fst r = 0
    /\ fdev (snd r) = fdev m
    /\ forall a,
         ram (snd r) a =
         if in_range to len a then fl_mem (fdev m) (from + (a - to))
         else ram m a.
Proof.
  induction fuel as [| fuel IH]; intros m to from len Hfuel; cbv zeta.
  - cbn [dfs_cache_ram fst snd]. repeat apply conj; try reflexivity.
    intros a. rewrite in_range_false by lia. reflexivity.
  - cbn [dfs_cache_ram].
    destruct (Z.ltb_spec 0 len) as [Hlen | Hlen].
    + unfold flash_read_aligned. cbn [Z.ltb Z.compare].
      set (tmp_len := Z.min len NAND_PAGE_SIZE).
      set (m1 := memcpy m to _ tmp_len).
      specialize (IH m1 (to + tmp_len) (from + tmp_len) (len - tmp_len)
                    ltac:(lia)).
      cbv zeta in IH. destruct IH as (I1 & I2 & I3).
      repeat apply conj.
      * exact I1.
      * rewrite I2. unfold m1. reflexivity.
      * intros a. rewrite I3. unfold m1.
        cbn [memcpy ram fdev].
        assert (Htmp : 0 < tmp_len <= len) by (unfold tmp_len; lia).
        destruct (in_range_cases to tmp_len a) as [[H E] | [H E]]; rewrite E.
        -- rewrite byte_at_map_range by lia.
           rewrite (in_range_false (to + tmp_len)) by lia.
           rewrite (in_range_true to len) by lia. reflexivity.
        -- ranges; try reflexivity; try lia. f_equal. lia.
    + cbn [fst snd]. repeat apply conj; try reflexivity.
      intros a. rewrite in_range_false by lia. reflexivity.
Qed.

(** X19: with the RAM buffer as scratch, a write that stays inside one
    block stores the buffer, leaves every other byte of the device as it
    was, and erases and writes that block once. *)
Theorem dfs_write_buffered_ram_one_block (m : machine) (pos : Z)
    (buff : list Z) (size : Z) :
  let r := dfs_write_buffered cfg m pos buff size (cache_addr cfg) in
  0 <= pos -> 0 <= size -> pos + size < 2 ^ 31 ->
  pos / NAND_BLOCK_SIZE = (pos + size) / NAND_BLOCK_SIZE ->
  fst r = 0
  /\ (forall a,
        fl_mem (fdev (snd r)) a =
        if in_range pos size a then byte_at buff (a - pos)
        else fl_mem (fdev m) a)
  /\ fl_log (fdev (snd r))
     = OpWrite (pos / NAND_BLOCK_SIZE * NAND_BLOCK_SIZE) NAND_BLOCK_SIZE
       :: OpErase (pos / NAND_BLOCK_SIZE) :: fl_log (fdev m).
Proof.
  intros r Hpos Hsize H31 Hone. subst r.
  pose proof block_size_pos as HB.
  unfold dfs_write_buffered, restore_last, dfs_cache_erase, dfs_cache,
    dfs_cache_write, dfs_cache_restore, CACHE_OFFSET.
  rewrite ram_scratch.
  rewrite Z.quot_div_nonneg, Z.rem_mod_nonneg by lia.
  pose proof (Z.div_mod pos NAND_BLOCK_SIZE ltac:(lia)) as Hp.
  pose proof (Z.mod_pos_bound pos NAND_BLOCK_SIZE HB) as Hoff.
  pose proof (Z.div_mod (pos + size) NAND_BLOCK_SIZE ltac:(lia)) as Hend.
  pose proof (Z.mod_pos_bound (pos + size) NAND_BLOCK_SIZE HB) as Htail.
  assert (Hs : 0 <= pos / NAND_BLOCK_SIZE) by (apply Z.div_pos; lia).
  assert (Hl : (pos + size) / NAND_BLOCK_SIZE <= pos + size)
    by (apply Z.div_le_upper_bound; nia).
  rewrite (to_uint_small (pos + size)) by lia.
  rewrite (to_int_small ((pos + size) / NAND_BLOCK_SIZE)) by lia.
  rewrite <- Hone in *. rewrite Z.eqb_refl.
  set (s := pos / NAND_BLOCK_SIZE) in *.
  set (off := pos mod NAND_BLOCK_SIZE) in *.
  assert (Hfit : off + size < NAND_BLOCK_SIZE) by nia.
  rewrite (to_uint_small (off + size)), (to_int_small (off + size)) by lia.
  set (C := cache_addr cfg).
  pose proof (dfs_cache_ram_spec (Z.to_nat off) m C (s * NAND_BLOCK_SIZE) off
                ltac:(lia)) as P1.
  cbv zeta in P1.
  destruct (dfs_cache_ram cfg (Z.to_nat off) m C (s * NAND_BLOCK_SIZE) off)
    as [e1 m1].
  cbn [fst snd] in P1. destruct P1 as (_ & D1 & R1).
  cbn [Z.eqb negb].
  set (m2 := memcpy m1 (C + off) buff size).
  pose proof (dfs_cache_ram_spec
                (Z.to_nat (NAND_BLOCK_SIZE - (off + size))) m2
                (C + (off + size)) (s * NAND_BLOCK_SIZE + (off + size))
                (NAND_BLOCK_SIZE - (off + size)) ltac:(lia)) as P2.
  cbv zeta in P2.
  destruct (dfs_cache_ram cfg (Z.to_nat (NAND_BLOCK_SIZE - (off + size))) m2
              (C + (off + size)) (s * NAND_BLOCK_SIZE + (off + size))
              (NAND_BLOCK_SIZE - (off + size))) as [e3 m3].
  cbn [fst snd] in P2. destruct P2 as (_ & D3 & R3).
  change (flash_erase cfg (fdev m3) s)
    with (0, snd (flash_erase cfg (fdev m3) s)).
  cbv beta iota. unfold on_dev. cbn [fst snd with_dev fdev].
  assert (Hdev : fdev m3 = fdev m).
  { rewrite D3. unfold m2. cbn [memcpy fdev]. exact D1. }
  repeat apply conj.
  - reflexivity.
  - intros a. rewrite mem_write, mem_erase, Hdev.
    destruct (in_range_cases (s * NAND_BLOCK_SIZE) NAND_BLOCK_SIZE a)
      as [[H E] | [H E]]; rewrite E.
    + rewrite program_erased. rewrite byte_at_map_range by lia.
      rewrite R3. unfold m2 at 1 2. cbn [memcpy ram fdev]. rewrite R1, D1.
      replace (C + (a - s * NAND_BLOCK_SIZE)) with (C + a - s * NAND_BLOCK_SIZE)
        by lia.
      ranges; try reflexivity; try lia; f_equal; lia.
    + rewrite in_range_false by lia. reflexivity.
  - rewrite log_write, log_erase, Hdev. reflexivity.
Qed.

End RamScratch.

(** ** The example platforms meet the assumptions *)


Lemma nand_program_erased (v : Z) : nand_program ERASED v = v.
Proof. reflexivity. Qed.

(** Settles a closed fact about the examples by evaluation. *)
Ltac closed_fact :=
  vm_compute;
  first
    [ reflexivity
    | discriminate
    | lia
    | repeat constructor; discriminate
    | repeat split; try reflexivity; intro; discriminate ].

(** ** The claims at concrete inputs *)

(** C1, at a failing input: with the RAM buffer as scratch, a write of
    five bytes at offset 5 of a device with blocks of 8 bytes returns 0,
    but the range [5 .. 10) does not read back as the buffer and the five
    bytes in front of it are lost.  The branch for several blocks calls
    [flash_write_aligned] and [flash_copy_block] with the address of the
    RAM buffer as flash offset and as block number. *)
Lemma dfs_write_buffered_ram_two_blocks :
  let r := dfs_write_buffered tiny_ram tiny_device 5 [1; 2; 3; 4; 5] 5 4096 in
  fst r = 0
  /\ snd (flash_read_aligned (fdev (snd r)) 5 5) = [173; 174; 175; 100; 101]
  /\ flash_bytes tiny_device 0 5 = [100; 101; 102; 103; 104]
  /\ flash_bytes (snd r) 0 5 = [168; 169; 170; 171; 172].
Proof. vm_compute. repeat split. Qed.

(** The same write with the last flash block as scratch. *)
Lemma dfs_write_buffered_flash_two_blocks :
  let r := dfs_write_buffered tiny_flash tiny_device 5 [1; 2; 3; 4; 5] 5 3 in
  fst r = 0
  /\ flash_bytes (snd r) 0 16
     = [100; 101; 102; 103; 104; 1; 2; 3; 4; 5; 110; 111; 112; 113; 114; 115].
Proof. vm_compute. repeat split. Qed.



(** C3, at a failing input: on a fresh file system with
    [DFS_INODES_MAX = 3], after three creates the fourth create returns 0
    and leaves [inode_count = 5] above [max_inode_count = 4]; only the
    fifth create returns [-ENOMEM]. *)
Lemma dfs_icreate_past_inodes_max :
  let sb3 := create_all mounted_sb [[97]; [98]; [99]] in
  let r4 := dfs_icreate small_flash sb3 (Some blank_inode) [100] in
  let r5 := dfs_icreate small_flash (snd (fst r4)) (Some blank_inode) [101] in
  inodes_max small_flash = 3
  /\ inode_count (sb_on_flash mounted_sb) = 1
  /\ inode_count (sb_on_flash sb3) = 4
  /\ fst (fst r4) = 0
  /\ inode_count (sb_on_flash (snd (fst r4))) = 5
  /\ max_inode_count (sb_on_flash (snd (fst r4))) = 4
  /\ fst (fst r5) = - ENOMEM.
Proof. vm_compute. repeat split. Qed.



(** C5, at a failing input: a file of length 5 truncated to 3 has the
    length 3 afterwards, in its inode and in a later lookup. *)
Lemma dfs_itruncate_shrinks :
  let r1 := dfs_itruncate small_flash sb_a inode_a 5 in
  let r2 := dfs_itruncate small_flash (snd (fst r1)) (snd r1) 3 in
  fst (fst r1) = 0
  /\ length (snd r1) = 5
  /\ fst (fst r2) = 0
  /\ length (snd r2) = 3
  /\ option_map length
       (dfs_ilookup small_flash (snd (fst r2)) [97] (Some blank_inode))
     = Some 3.
Proof. vm_compute. repeat split. Qed.

(** C6, a counterexample: a read at the end of a file of length 5 clips
    to 0 bytes and returns 0, not an error. *)
Lemma dfs_read_at_end_returns_zero :
  let desc := {| f_inode := mk_inode 1 72 5 0; pos := 5 |} in
  Z.min 3 (file_get_size desc - pos desc) = 0
  /\ dfs_read sb_a desc 3 = (0, []).
Proof. vm_compute. repeat split. Qed.

Lemma dfs_read_write_clip_witness :
  let desc := {| f_inode := mk_inode 1 72 5 0; pos := 2 |} in
  let lr := Z.min 4 (file_get_size desc - pos desc) in
  let lw := Z.min 4 (max_len (sb_data sb_a) - pos desc) in
  (fst (dfs_read sb_a desc 4) < 0 <-> lr < 0)
  /\ (0 <= lr -> fst (dfs_read sb_a desc 4) = lr)
  /\ (fst (dfs_write small_flash sb_a desc [1; 2; 3; 4] 4) < 0 <-> lw <= 0)
  /\ (0 < lw -> fst (dfs_write small_flash sb_a desc [1; 2; 3; 4] 4) = lw).
Proof.
  apply (dfs_read_write_clip small_flash sb_a
           {| f_inode := mk_inode 1 72 5 0; pos := 2 |} [1; 2; 3; 4] 4);
    closed_fact.
Defined.

(** C7, at a failing input: a write of the 8 bytes of block 0 touches one
    block, but the call erases two blocks other than the scratch block,
    block 0 and block 1. *)
Lemma dfs_write_buffered_erases_next_block :
  let r := dfs_write_buffered tiny_flash tiny_device 0
             [1; 2; 3; 4; 5; 6; 7; 8] 8 3 in
  let ops := new_ops (fl_log (fdev tiny_device)) (fl_log (fdev (snd r))) in
  0 / block_size tiny_flash = 0
  /\ (0 + 8 - 1) / block_size tiny_flash = 0
  /\ fst r = 0
  /\ persistent_erases 3 ops = 2
  /\ count_ops (is_erase_of 0) ops = 1
  /\ count_ops (is_erase_of 1) ops = 1.
Proof. vm_compute. repeat split. Qed.



Lemma dfs_format_superblock_and_root_witness :
  let r := dfs_format small_flash (device 8 (fun _ => 0)) (repeat 7 40) in
  let sb := with_bdev mounted_sb (snd r) in
  let sbi := sb_data (snd (dfs_read_sb_info sb)) in
  let root := snd (dfs_read_dirent small_flash sb 0) in
  magic sbi = [13; 245]
  /\ inode_count sbi = 1
  /\ free_space sbi
     = sizeof_sb_info + inodes_max small_flash * sizeof_dir_entry small_flash
  /\ cstr (name root) = [47]
  /\ pos_start root = free_space sbi
  /\ len root = inodes_max small_flash
  /\ Z.land (flags root) S_IFDIR = S_IFDIR.
Proof.
  apply (dfs_format_superblock_and_root small_flash nand_program_erased
           eq_refl (device 8 (fun _ => 0)) (repeat 7 40) mounted_sb);
    closed_fact.
Defined.

(** C10, at a failing input: with the RAM buffer as scratch and blocks
    of 64 bytes, the file "a" is in slot 1 and the table has room; a
    second create of "a" returns 0 with the inode number 2, but slot 2,
    whose 16 bytes lie across the end of block 0, does not hold the name,
    and [ino_from_path] finds "a" in no slot any more.  The write of the
    entry takes the branch of [dfs_write_buffered] for several blocks,
    the one of C1. *)
Lemma dfs_icreate_duplicate_name_ram :
  let first := dfs_icreate small_ram ram_mounted_sb (Some blank_inode) [97] in
  let sb1 := snd (fst first) in
  let second := dfs_icreate small_ram sb1 (Some blank_inode) [97] in
  let sb2 := snd (fst second) in
  fst (fst first) = 0
  /\ ino_from_path small_ram sb1 [97] = 1
  /\ inode_count (sb_on_flash sb1) < max_inode_count (sb_on_flash sb1)
  /\ DFS_DENTRY_OFFSET small_ram 2 = 56
  /\ fst (fst second) = 0
  /\ snd second = Some {| i_no := 2; i_data := 88; length := 0; i_mode := 0 |}
  /\ cstr (name (snd (dfs_read_dirent small_ram sb2 2))) <> [97]
  /\ ino_from_path small_ram sb2 [97] = -1.
Proof. closed_fact. Qed.

(** A name of five characters in a name array of four bytes: the fifth
    character and the NUL land on [pos_start], so the entry and the inode
    get the offset 101 where the superblock said 72. *)
Lemma dfs_icreate_name_overrun :
  let r := dfs_icreate small_flash mounted_sb (Some blank_inode)
             [97; 98; 99; 100; 101] in
  free_space (sb_on_flash mounted_sb) = 72
  /\ snd r = Some {| i_no := 1; i_data := 101; length := 0; i_mode := 0 |}
  /\ snd (dfs_read_dirent small_flash (snd (fst r)) 1)
     = {| name := [97; 98; 99; 100]; pos_start := 101; len := 0; flags := 0 |}.
Proof. closed_fact. Qed.


(** ** The further properties at concrete inputs *)



Lemma dfs_write_buffered_up_to_scratch_witness :
  let r := dfs_write_buffered tiny_flash tiny_device 19 [1; 2; 3; 4; 5] 5
             ((19 + 5) / block_size tiny_flash) in
  fst r = 0
  /\ forall a,
       fl_mem (fdev (snd r)) a =
       if in_range 19 5 a then byte_at [1; 2; 3; 4; 5] (a - 19)
       else if in_range ((19 + 5) / block_size tiny_flash
                         * block_size tiny_flash) (block_size tiny_flash) a
       then ERASED
       else fl_mem (fdev tiny_device) a.
Proof.
  apply (dfs_write_buffered_up_to_scratch tiny_flash nand_program_erased
           eq_refl eq_refl tiny_device 19 [1; 2; 3; 4; 5] 5); closed_fact.
Defined.



Lemma dfs_icreate_refused_witness :
  let sb := create_all mounted_sb [[97]; [98]; [99]; [100]] in
  let r := dfs_icreate small_flash sb (Some blank_inode) [101] in
  bdev (snd (fst r)) = bdev sb
  /\ snd r = Some blank_inode
  /\ (fst (fst r) = -1 \/ fst (fst r) = - ENOMEM).
Proof.
  apply (dfs_icreate_refused small_flash
           (create_all mounted_sb [[97]; [98]; [99]; [100]])
           (Some blank_inode) [101]).
  closed_fact.
Defined.






Lemma dfs_format_erases_device_witness :
  fl_mem (fdev (snd (dfs_format small_flash (device 8 (fun _ => 0))
                       (repeat 7 40)))) 100
  = if in_range 0 (total_blocks [8] * block_size small_flash) 100
    then ERASED else 0.
Proof.
  apply (dfs_format_erases_device small_flash eq_refl
           (device 8 (fun _ => 0)) (repeat 7 40) 100); closed_fact.
Defined.

Lemma fresh_directory_is_empty_witness :
  enumerate small_flash 4
    (with_bdev mounted_sb
       (snd (dfs_format small_flash (device 8 (fun _ => 0)) (repeat 7 40))))
    mounted_root 0
  = Some [].
Proof.
  apply (fresh_directory_is_empty small_flash eq_refl
           (device 8 (fun _ => 0)) (repeat 7 40) mounted_sb mounted_root 4%nat);
    closed_fact.
Defined.

Lemma dfs_fill_sb_after_format_witness :
  let m := device 8 (fun _ => 0) in
  let m1 := snd (dfs_format small_flash m (repeat 7 40)) in
  dfs_fill_sb small_flash m1 blank_inode []
  = (0,
     {| sb_data := fresh_sb small_flash m; bdev := m1 |},
     {| i_no := 0;
        i_data := DFS_DENTRY_OFFSET small_flash (inodes_max small_flash);
        length := inodes_max small_flash; i_mode := i_mode blank_inode |}).
Proof.
  apply (dfs_fill_sb_after_format small_flash nand_program_erased eq_refl
           (device 8 (fun _ => 0)) (repeat 7 40)); closed_fact.
Defined.

Lemma dfs_fill_sb_blank_device_witness :
  let m := device 8 (fun _ => 0) in
  let m1 := snd (dfs_format small_flash m (repeat 7 40)) in
  dfs_fill_sb small_flash m blank_inode (repeat 7 40)
  = (0,
     {| sb_data := fresh_sb small_flash m; bdev := m1 |},
     {| i_no := 0;
        i_data := DFS_DENTRY_OFFSET small_flash (inodes_max small_flash);
        length := inodes_max small_flash; i_mode := i_mode blank_inode |}).
Proof.
  apply (dfs_fill_sb_blank_device small_flash nand_program_erased eq_refl
           (device 8 (fun _ => 0)) blank_inode (repeat 7 40));
    closed_fact.
Defined.

Lemma dfs_write_buffered_ram_one_block_witness :
  let r := dfs_write_buffered tiny_ram tiny_device 5 [1; 2] 2
             (cache_addr tiny_ram) in
  fst r = 0
  /\ (forall a,
        fl_mem (fdev (snd r)) a =
        if in_range 5 2 a then byte_at [1; 2] (a - 5)
        else fl_mem (fdev tiny_device) a)
  /\ fl_log (fdev (snd r))
     = OpWrite (5 / block_size tiny_ram * block_size tiny_ram)
         (block_size tiny_ram)
       :: OpErase (5 / block_size tiny_ram) :: fl_log (fdev tiny_device).
Proof.
  apply (dfs_write_buffered_ram_one_block tiny_ram nand_program_erased
           eq_refl eq_refl eq_refl tiny_device 5 [1; 2] 2); closed_fact.
Defined.
